(** * pg_query_to_yadisk: export a PostgreSQL query to CSV and publish it over WebDAV

    A shallow embedding of [src/db.py] and the properties of its pipeline.

    Python [str] values are modelled as lists of bytes (their UTF-8
    encoding).  Every character the program inspects ('/', ',', the double
    quote, CR and LF) is a single byte that never occurs inside a multi-byte
    UTF-8 sequence, so splitting, stripping and quoting act on bytes exactly
    as they act on code points.

    The outside world (database, file system failures, HTTP server, clock)
    is an explicit record of oracles, [world]; the program is deterministic
    once a world is fixed.  Effects are threaded through a small state and
    exception monad whose state holds the file system, the database handles
    and the trace of every externally visible action. *)

From Stdlib Require Import Ascii String ZArith Bool Lia List.
Import ListNotations.

Set Implicit Arguments.

(* ================================================================== *)
(** * Python strings *)

Abbreviation str := (list ascii).

(** String literals of the source. *)
Definition lit (s : string) : str := list_ascii_of_string s.

Definition slash : ascii := Eval cbv in ascii_of_nat 47.
Definition comma : ascii := Eval cbv in ascii_of_nat 44.
Definition dquote : ascii := Eval cbv in ascii_of_nat 34.
Definition CR : ascii := Eval cbv in ascii_of_nat 13.
Definition LF : ascii := Eval cbv in ascii_of_nat 10.

Fixpoint str_eqb (a b : str) : bool :=
  match a, b with
  | [], [] => true
  | x :: a', y :: b' => Ascii.eqb x y && str_eqb a' b'
  | _, _ => false
  end.

(** Truth value of a string: the empty string is falsy. *)
Definition truthy (s : str) : bool :=
  match s with [] => false | _ :: _ => true end.

(** Truth value of an optional string ([None] and [""] are falsy). *)
Definition opt_truthy (o : option str) : bool :=
  match o with Some s => truthy s | None => false end.

(** Python's [x or d] on an optional string. *)
Definition or_else (o : option str) (d : str) : str :=
  match o with Some (c :: s) => c :: s | _ => d end.

(** [s.lstrip(c)], [s.rstrip(c)] and [s.strip(c)] for a one-character set. *)
Fixpoint lstrip (c : ascii) (s : str) : str :=
  match s with
  | [] => []
  | x :: r => if Ascii.eqb x c then lstrip c r else s
  end.

Definition rstrip (c : ascii) (s : str) : str := rev (lstrip c (rev s)).

Definition strip (c : ascii) (s : str) : str := rstrip c (lstrip c s).

(** [s.split(c)]: never empty, [""] splits into [[""]]. *)
Fixpoint split (c : ascii) (s : str) : list str :=
  match s with
  | [] => [[]]
  | x :: r =>
      if Ascii.eqb x c then [] :: split c r
      else match split c r with
           | [] => [[x]]
           | h :: t => (x :: h) :: t
           end
  end.

(** [sep.join(l)]. *)
Fixpoint join (sep : str) (l : list str) : str :=
  match l with
  | [] => []
  | [x] => x
  | x :: r => x ++ sep ++ join sep r
  end.

Definition contains (c : ascii) (s : str) : bool := existsb (Ascii.eqb c) s.

(* ================================================================== *)
(** * Values, rows and the csv module's writer (excel dialect) *)

(** A scalar of a result row.  [PyOther] carries what [str()] returns for
    a value that is neither [None] nor a [str] (numbers, timestamps). *)
Inductive value :=
| PyNone
| PyStr (s : str)
| PyOther (text : str).

(** The text the csv writer emits for a value before quoting. *)
Definition value_text (v : value) : str :=
  match v with
  | PyNone => []
  | PyStr s => s
  | PyOther t => t
  end.

(** A [RealDictRow]: an insertion-ordered dictionary from column name to
    value. *)
Definition rowdict := list (str * value).

Fixpoint dict_set (k : str) (v : value) (d : rowdict) : rowdict :=
  match d with
  | [] => [(k, v)]
  | (k', v') :: r =>
      if str_eqb k k' then (k, v) :: r else (k', v') :: dict_set k v r
  end.

Fixpoint dict_get (k : str) (d : rowdict) : option value :=
  match d with
  | [] => None
  | (k', v) :: r => if str_eqb k k' then Some v else dict_get k r
  end.

(** [RealDictCursor] builds a row by assigning the fetched values to the
    column names of the descriptor, left to right. *)
Definition assign (d : rowdict) (kv : str * value) : rowdict :=
  dict_set (fst kv) (snd kv) d.

Definition real_dict_row (names : list str) (vals : list value) : rowdict :=
  fold_left assign (combine names vals) [].

(** Does a field need quoting under QUOTE_MINIMAL?  It does when it holds
    the delimiter, the quote character or a character of the line
    terminator ["\r\n"]. *)
Definition special (c : ascii) : bool :=
  Ascii.eqb c comma || Ascii.eqb c dquote || Ascii.eqb c CR || Ascii.eqb c LF.

Definition needs_quote (f : str) : bool := existsb special f.

(** Doubling of embedded quote characters ([doublequote=True]). *)
Fixpoint double_quotes (f : str) : str :=
  match f with
  | [] => []
  | c :: r =>
      if Ascii.eqb c dquote then dquote :: dquote :: double_quotes r
      else c :: double_quotes r
  end.

Definition write_field (f : str) : str :=
  if needs_quote f then dquote :: double_quotes f ++ [dquote] else f.

Definition CRLF : str := [CR; LF].

(** [csv.writer.writerow]: the fields joined by the delimiter, then the
    line terminator.  A record made of one empty field is written as a pair
    of quotes, so that it differs from a record without fields. *)
Definition write_record (fields : list str) : str :=
  match fields with
  | [[]] => [dquote; dquote] ++ CRLF
  | _ => join [comma] (map write_field fields) ++ CRLF
  end.

(** [DictWriter._dict_to_list]: with [extrasaction="raise"] a key outside
    [fieldnames] is an error; a missing key yields [restval = ""]. *)
Definition wrong_fields (fieldnames : list str) (d : rowdict) : list str :=
  filter (fun k => negb (existsb (str_eqb k) fieldnames)) (map fst d).

Definition dict_to_list (fieldnames : list str) (d : rowdict) : list value :=
  map (fun k => match dict_get k d with Some v => v | None => PyStr [] end)
      fieldnames.

(** The text of a whole file: one record after the other. *)
Definition csv_text (records : list (list str)) : str :=
  concat (map write_record records).

(** Physical lines of a text, line ends kept, as Python yields them for a
    file opened with [newline=""]: a line ends after LF, after CR LF, or
    after a CR that no LF follows. *)
Fixpoint splitlines (text : str) : list str :=
  match text with
  | [] => []
  | c :: rest =>
      if Ascii.eqb c LF then [c] :: splitlines rest
      else if Ascii.eqb c CR then
        match rest with
        | c' :: rest' =>
            if Ascii.eqb c' LF then [c; c'] :: splitlines rest'
            else [c] :: splitlines rest
        | [] => [[c]]
        end
      else match splitlines rest with
           | [] => [[c]]
           | l :: ls => (c :: l) :: ls
           end
  end.

(* ================================================================== *)
(** * The csv module's reader (excel dialect, non-strict)

    The reader is the state machine of the csv module: it is fed the
    physical lines of the text one character at a time, with an
    end-of-line signal ([None]) after each line, and hands out a record
    whenever that signal leaves it in [START_RECORD]. *)

Inductive pstate :=
| START_RECORD
| START_FIELD
| IN_FIELD
| IN_QUOTED_FIELD
| QUOTE_IN_QUOTED_FIELD
| EAT_CRNL.

Record reader := {
  rstate : pstate;
  field : str;
  fields : list str
}.

Definition mk (st : pstate) (f : str) (fs : list str) : reader :=
  {| rstate := st; field := f; fields := fs |}.

Definition fresh : reader := mk START_RECORD [] [].

Definition goto (r : reader) (s : pstate) : reader :=
  {| rstate := s; field := field r; fields := fields r |}.

Definition save_field (r : reader) (s : pstate) : reader :=
  {| rstate := s; field := []; fields := fields r ++ [field r] |}.

Definition add_char (r : reader) (c : ascii) (s : pstate) : reader :=
  {| rstate := s; field := field r ++ [c]; fields := fields r |}.

Definition is_nl (c : ascii) : bool := Ascii.eqb c LF || Ascii.eqb c CR.

Definition start_field (r : reader) (c : option ascii) : option reader :=
  match c with
  | None => Some (save_field r START_RECORD)
  | Some x =>
      if is_nl x then Some (save_field r EAT_CRNL)
      else if Ascii.eqb x dquote then Some (goto r IN_QUOTED_FIELD)
      else if Ascii.eqb x comma then Some (save_field r START_FIELD)
      else Some (add_char r x IN_FIELD)
  end.

(** One step of the machine; [None] as input is the end of a line, [None]
    as result is the reader's error. *)
Definition process_char (r : reader) (c : option ascii) : option reader :=
  match rstate r with
  | START_RECORD =>
      match c with
      | None => Some r
      | Some x => if is_nl x then Some (goto r EAT_CRNL) else start_field r c
      end
  | START_FIELD => start_field r c
  | IN_FIELD =>
      match c with
      | None => Some (save_field r START_RECORD)
      | Some x =>
          if is_nl x then Some (save_field r EAT_CRNL)
          else if Ascii.eqb x comma then Some (save_field r START_FIELD)
          else Some (add_char r x IN_FIELD)
      end
  | IN_QUOTED_FIELD =>
      match c with
      | None => Some r
      | Some x =>
          if Ascii.eqb x dquote then Some (goto r QUOTE_IN_QUOTED_FIELD)
          else Some (add_char r x IN_QUOTED_FIELD)
      end
  | QUOTE_IN_QUOTED_FIELD =>
      match c with
      | None => Some (save_field r START_RECORD)
      | Some x =>
          if Ascii.eqb x dquote then Some (add_char r x IN_QUOTED_FIELD)
          else if Ascii.eqb x comma then Some (save_field r START_FIELD)
          else if is_nl x then Some (save_field r EAT_CRNL)
          else Some (add_char r x IN_FIELD)
      end
  | EAT_CRNL =>
      match c with
      | None => Some (goto r START_RECORD)
      | Some x => if is_nl x then Some r else None
      end
  end.

Fixpoint read_line (r : reader) (line : str) : option reader :=
  match line with
  | [] => process_char r None
  | c :: l =>
      match process_char r (Some c) with
      | None => None
      | Some r' => read_line r' l
      end
  end.

Definition in_quoted (s : pstate) : bool :=
  match s with IN_QUOTED_FIELD => true | _ => false end.

Fixpoint read_records (r : reader) (lines : list str)
  : option (list (list str)) :=
  match lines with
  | [] =>
      if truthy (field r) || in_quoted (rstate r)
      then Some [fields r ++ [field r]]
      else Some []
  | l :: ls =>
      match read_line r l with
      | None => None
      | Some r' =>
          match rstate r' with
          | START_RECORD =>
              option_map (cons (fields r')) (read_records fresh ls)
          | _ => read_records r' ls
          end
      end
  end.

(** The reader in state [r] at the start of a line, given the rest of the
    text. *)
Definition feed (r : reader) (text : str) : option (list (list str)) :=
  read_records r (splitlines text).

(** [list(csv.reader(open(path, newline="")))]. *)
Definition csv_reader (text : str) : option (list (list str)) :=
  feed fresh text.

(* ================================================================== *)
(** * Exceptions, events and the outside world *)

(** Where an exception comes from.  Only its class and its text matter to
    the program. *)
Inductive errkind :=
| ConnectionError      (* psycopg2.connect *)
| CursorError          (* conn.cursor *)
| QueryError           (* cur.execute, cur.description, fetching rows *)
| SerializationError   (* opening or writing the CSV file, DictWriter *)
| CursorCloseError     (* cur.close *)
| TransportError       (* requests *)
| OsError.             (* mkstemp, open for reading, os.remove *)

(** [SystemExit] derives from [BaseException], not from [Exception]: an
    [except Exception] clause lets it through. *)
Inductive exn :=
| PyException (kind : errkind) (what : str)
| SystemExit (code : Z).

Inductive result (A : Type) :=
| Ok (a : A)
| Raise (e : exn).
Arguments Ok {A} a.
Arguments Raise {A} e.

(** What an oracle answers: a value, or the text of the error raised. *)
Inductive outcome (A : Type) :=
| Fine (a : A)
| Fails (what : str).
Arguments Fine {A} a.
Arguments Fails {A} what.

(** What the HTTP server answers: a response, or no response at all (a
    transport-level exception of [requests]). *)
Inductive reply :=
| Response (status_code : Z) (text : str)
| Failed (what : str).

Record conn_params := {
  host : str;
  port : str;
  user : option str;
  password : option str;
  dbname : option str
}.

Inductive stream := Stdout | Stderr.

(** The messages of the program, one constructor per [print]. *)
Inductive message :=
| MsgNoToken
| MsgNoPgParams
| MsgQuerying (local_path : str)
| MsgMkcolStatus (url : str) (status : Z)
| MsgMkcolFailed (url : str) (what : str)
| MsgUploading (local_path remote_file_url : str)
| MsgUploaded (remote_filename : str)
| MsgUploadError (status : Z) (text : str)
| MsgCleanupFailed (what : str).

Definition credentials := (str * str)%type.

(** Every action that reaches outside the process, logged when attempted. *)
Inductive event :=
| EPrint (to : stream) (m : message)
| EMkstemp
| EConnect (p : conn_params)
| ECursor
| EExecute (query : str)
| ECursorClose
| EConnClose
| EOpenW (path : str)
| EWrite (path : str) (data : str)
| EOpenR (path : str)
| EMkcol (url : str) (auth : credentials)
| EPut (url : str) (auth : credentials) (data : str)
| ERemove (path : str).

(** The oracles.  There is one for every call that can raise: those that
    contact the database server, the file system or the network, and the
    creation of the cursor.  Closing the connection and printing do not
    fail. *)
Record world := {
  w_utcnow : str;                            (* the formatted timestamp *)
  w_mkstemp : outcome str;
  w_connect : conn_params -> option str;
  w_cursor : option str;
  w_execute : str -> outcome (list str);     (* names of cur.description *)
  w_fetch : list (outcome (list value));     (* what iterating cur yields *)
  w_cursor_close : option str;
  w_open_w : str -> option str;
  w_write : nat -> option str;               (* by number of the record *)
  w_open_r : str -> option str;
  w_mkcol : nat -> str -> reply;             (* by number of the request *)
  w_put : str -> str -> reply;               (* by URL and body *)
  w_remove : str -> option str
}.

(** The state of the system: files with their contents, the two database
    handles, and the trace. *)
Record sys := {
  fs : str -> option str;
  conn_open : bool;
  cursor_open : bool;
  trace : list event
}.

Definition boot (files : str -> option str) : sys :=
  {| fs := files; conn_open := false; cursor_open := false; trace := [] |}.

(* ================================================================== *)
(** * The monad *)

Definition M (A : Type) := sys -> result A * sys.

Definition ret {A} (a : A) : M A := fun s => (Ok a, s).

Definition bind {A B} (m : M A) (k : A -> M B) : M B :=
  fun s =>
    match m s with
    | (Ok a, s') => k a s'
    | (Raise e, s') => (Raise e, s')
    end.

Notation "x <- m ;; k" := (bind m (fun x => k))
  (at level 61, m at next level, right associativity).
Notation "m ;; k" := (bind m (fun _ => k))
  (at level 61, right associativity).

Definition raise {A} (e : exn) : M A := fun s => (Raise e, s).

(** [try: body finally: cleanup]. The cleanup always runs; an exception of
    the cleanup replaces the outcome of the body. *)
Definition try_finally {A} (body : M A) (cleanup : M unit) : M A :=
  fun s =>
    let (r, s1) := body s in
    match cleanup s1 with
    | (Ok _, s2) => (r, s2)
    | (Raise e, s2) => (Raise e, s2)
    end.

(** [try: body except Exception as e: handler(e)]. *)
Definition try_except {A} (body : M A) (handler : str -> M A) : M A :=
  fun s =>
    match body s with
    | (Raise (PyException _ what), s1) => handler what s1
    | other => other
    end.

(** The state after some more events. *)
Definition add_trace (s : sys) (l : list event) : sys :=
  {| fs := fs s; conn_open := conn_open s; cursor_open := cursor_open s;
     trace := trace s ++ l |}.

Definition log (e : event) : M unit := fun s => (Ok tt, add_trace s [e]).

Definition print (to : stream) (m : message) : M unit := log (EPrint to m).

Definition sys_exit {A} (code : Z) : M A := raise (SystemExit code).

Definition set_conn (c : bool) : M unit :=
  fun s => (Ok tt, {| fs := fs s; conn_open := c;
                      cursor_open := cursor_open s; trace := trace s |}).

Definition set_cursor (k : bool) : M unit :=
  fun s => (Ok tt, {| fs := fs s; conn_open := conn_open s;
                      cursor_open := k; trace := trace s |}).

Definition update (files : str -> option str) (path : str) (v : option str)
  : str -> option str :=
  fun q => if str_eqb q path then v else files q.

Definition set_file (path : str) (v : option str) : M unit :=
  fun s => (Ok tt, {| fs := update (fs s) path v; conn_open := conn_open s;
                      cursor_open := cursor_open s; trace := trace s |}).

Definition get_file (path : str) : M (option str) :=
  fun s => (Ok (fs s path), s).

(** Raise when the oracle reports an error. *)
Definition check (kind : errkind) (o : option str) : M unit :=
  match o with
  | Some what => raise (PyException kind what)
  | None => ret tt
  end.

(* ================================================================== *)
(** * Library calls *)

Section Program.

Variable w : world.

Definition pg_connect (p : conn_params) : M unit :=
  log (EConnect p) ;;
  check ConnectionError (w_connect w p) ;;
  set_conn true.

Definition conn_cursor : M unit :=
  log ECursor ;;
  check CursorError (w_cursor w) ;;
  set_cursor true.

Definition cur_execute (query : str) : M (list str) :=
  log (EExecute query) ;;
  match w_execute w query with
  | Fine names => ret names
  | Fails what => raise (PyException QueryError what)
  end.

Definition cur_close : M unit :=
  log ECursorClose ;;
  check CursorCloseError (w_cursor_close w) ;;
  set_cursor false.

(** Closing the connection ends the session, and with it every cursor
    that still lives in it. *)
Definition conn_close : M unit :=
  log EConnClose ;;
  set_cursor false ;;
  set_conn false.

(** [open(path, mode="w", newline="")] creates or truncates the file. *)
Definition open_w (path : str) : M unit :=
  log (EOpenW path) ;;
  check SerializationError (w_open_w w path) ;;
  set_file path (Some []).

Definition file_write (path : str) (i : nat) (data : str) : M unit :=
  log (EWrite path data) ;;
  check SerializationError (w_write w i) ;;
  old <- get_file path ;;
  set_file path (Some (match old with Some t => t ++ data | None => data end)).

Definition DictWriter_writerow (path : str) (fieldnames : list str) (i : nat)
    (d : rowdict) : M unit :=
  match wrong_fields fieldnames d with
  | [] =>
      file_write path i
        (write_record (map value_text (dict_to_list fieldnames d)))
  | _ :: _ =>
      raise (PyException SerializationError
               (lit "dict contains fields not in fieldnames"))
  end.

(** [writeheader] writes the row [dict(zip(fieldnames, fieldnames))]. *)
Definition DictWriter_writeheader (path : str) (fieldnames : list str)
  : M unit :=
  DictWriter_writerow path fieldnames 0
    (real_dict_row fieldnames (map PyStr fieldnames)).

Definition request_mkcol (i : nat) (url : str) (auth : credentials) : M Z :=
  log (EMkcol url auth) ;;
  match w_mkcol w i url with
  | Response status _ => ret status
  | Failed what => raise (PyException TransportError what)
  end.

Definition os_mkstemp : M str :=
  log EMkstemp ;;
  match w_mkstemp w with
  | Fine path => set_file path (Some []) ;; ret path
  | Fails what => raise (PyException OsError what)
  end.

(* ================================================================== *)
(** * The functions of db.py *)

(** The loop [for row in cur: writer.writerow(row)] (lines 50-52); [i]
    numbers the records written. *)
Fixpoint write_rows (path : str) (fieldnames : list str) (i : nat)
    (rows : list (outcome (list value))) : M unit :=
  match rows with
  | [] => ret tt
  | Fails what :: _ => raise (PyException QueryError what)
  | Fine vals :: rest =>
      DictWriter_writerow path fieldnames i (real_dict_row fieldnames vals) ;;
      write_rows path fieldnames (S i) rest
  end.

(** Lines 39-52: the body of the [try] of [run_query_and_write_csv]. *)
Definition export_body (query local_path : str) : M unit :=
  fieldnames <- cur_execute query ;;
  open_w local_path ;;
  DictWriter_writeheader local_path fieldnames ;;
  write_rows local_path fieldnames 1 (w_fetch w).

(** Lines 54-59: its [finally]. *)
Definition release : M unit :=
  try_except cur_close (fun _ => ret tt) ;;
  conn_close.

(** Lines 30-59. *)
Definition run_query_and_write_csv (p : conn_params) (query local_path : str)
  : M unit :=
  pg_connect p ;;
  conn_cursor ;;
  try_finally (export_body query local_path) release.

(** Lines 61-71 (not called by [main]).  [resp.ok] is false exactly for
    the statuses from 400 to 599. *)
Definition ensure_remote_dir_exists (remote_dir_url : str)
    (auth : credentials) : M bool :=
  status <- request_mkcol 0 remote_dir_url auth ;;
  if ((status =? 201) || (status =? 405) || (status =? 405))%Z then ret true
  else ret (negb ((400 <=? status) && (status <? 600))%Z).

(** Lines 73-80. *)
Definition upload_file_to_yadisk (local_path remote_url : str)
    (auth : credentials) : M (Z * str) :=
  log (EOpenR local_path) ;;
  content <- get_file local_path ;;
  match content with
  | None => raise (PyException OsError (lit "No such file or directory"))
  | Some data =>
      check OsError (w_open_r w local_path) ;;
      log (EPut remote_url auth data) ;;
      match w_put w remote_url data with
      | Response status text => ret (status, text)
      | Failed what => raise (PyException TransportError what)
      end
  end.

Record args := {
  pg_host : str;
  pg_port : str;
  pg_user : option str;
  pg_password : option str;
  pg_database : option str;
  query : str;
  yandex_login : option str;
  remote_dir : str;
  remote_name : option str;
  local_temp : option str
}.

Definition base_webdav : str := lit "https://webdav.yandex.ru".

(** The loop of lines 151-168; [accum] is the prefix built so far and [i]
    numbers the requests. *)
Fixpoint mkcol_loop (auth : credentials) (parts : list str) (accum : str)
    (i : nat) : M unit :=
  match parts with
  | [] => ret tt
  | p :: rest =>
      let accum := if truthy accum then accum ++ [slash] ++ p else p in
      let url_part := base_webdav ++ [slash] ++ accum in
      try_except
        (status <- request_mkcol i url_part auth ;;
         if ((status =? 201) || (status =? 405))%Z then ret tt
         else if (status =? 409)%Z then ret tt
         else if negb ((200 <=? status) && (status <? 300))%Z
              then print Stdout (MsgMkcolStatus url_part status)
              else ret tt)
        (fun what => print Stdout (MsgMkcolFailed url_part what)) ;;
      mkcol_loop auth rest accum (S i)
  end.

(** Lines 141 and 149-168: the directory part of the pipeline. *)
Definition make_remote_dirs (auth : credentials) (remote_dir_arg : str)
  : M unit :=
  let remote_dir := strip slash remote_dir_arg in
  let parts := split slash remote_dir in
  mkcol_loop auth parts [] 0.

(** Lines 141-145. *)
Definition remote_file_url (remote_dir_arg remote_filename : str) : str :=
  let remote_dir := strip slash remote_dir_arg in
  let remote_dir_url := base_webdav ++ [slash] ++ remote_dir in
  remote_dir_url ++ [slash] ++ remote_filename.

(** Lines 171-176: what [main] makes of the upload's response. *)
Definition report_upload (remote_filename : str) (resp : Z * str) : M unit :=
  let (status, text) := resp in
  if ((200 <=? status) && (status <? 300))%Z
  then print Stdout (MsgUploaded remote_filename)
  else print Stderr (MsgUploadError status text) ;; sys_exit 2.

(** Lines 134-176: the body of the [try] of [main]. *)
Definition pipeline (a : args) (p : conn_params) (yad_token : str)
    (remote_filename local_path : str) : M unit :=
  print Stdout (MsgQuerying local_path) ;;
  run_query_and_write_csv p (query a) local_path ;;
  let url := remote_file_url (remote_dir a) remote_filename in
  let auth := (or_else (yandex_login a) [], yad_token) in
  make_remote_dirs auth (remote_dir a) ;;
  print Stdout (MsgUploading local_path url) ;;
  resp <- upload_file_to_yadisk local_path url auth ;;
  report_upload remote_filename resp.

(** Lines 178-184: the [finally] of [main]. *)
Definition cleanup (local_path : str) : M unit :=
  content <- get_file local_path ;;
  match content with
  | Some _ =>
      try_except
        (log (ERemove local_path) ;;
         check OsError (w_remove w local_path) ;;
         set_file local_path None)
        (fun what => print Stderr (MsgCleanupFailed what))
  | None => ret tt
  end.

Definition make_conn_params (a : args) : conn_params :=
  {| host := pg_host a; port := pg_port a; user := pg_user a;
     password := pg_password a; dbname := pg_database a |}.

Definition make_remote_filename (a : args) : str :=
  or_else (remote_name a)
    (or_else (pg_database a) [] ++ lit "_query_" ++ w_utcnow w ++ lit ".csv").

(** Lines 127-131. *)
Definition choose_local_path (a : args) : M str :=
  if opt_truthy (local_temp a) then ret (or_else (local_temp a) [])
  else os_mkstemp.

(** Lines 84-184, after the arguments are parsed.  [token] is the value of
    YANDEX_DISK_TOKEN in the environment. *)
Definition main (token : option str) (a : args) : M unit :=
  if negb (opt_truthy token) then
    print Stderr MsgNoToken ;; sys_exit 1
  else
    let yad_token := or_else token [] in
    let p := make_conn_params a in
    if negb (opt_truthy (user p)) || negb (opt_truthy (dbname p)) then
      print Stderr MsgNoPgParams ;; sys_exit 1
    else
      let remote_filename := make_remote_filename a in
      local_path <- choose_local_path a ;;
      try_finally
        (pipeline a p yad_token remote_filename local_path)
        (cleanup local_path).

End Program.

(** The exit status of the process: 0 when [main] returns, the code of a
    [SystemExit], and 1 when an exception reaches the top level. *)
Definition exit_status (r : result unit) : Z :=
  match r with
  | Ok _ => 0
  | Raise (SystemExit code) => code
  | Raise (PyException _ _) => 1
  end.

(** The arguments with another [--remote-dir]. *)
Definition with_remote_dir (d : str) (a : args) : args :=
  {| pg_host := pg_host a; pg_port := pg_port a; pg_user := pg_user a;
     pg_password := pg_password a; pg_database := pg_database a;
     query := query a; yandex_login := yandex_login a;
     remote_dir := d; remote_name := remote_name a;
     local_temp := local_temp a |}.

(** The world with another answer to [os.remove]. *)
Definition with_remove (f : str -> option str) (w : world) : world :=
  {| w_utcnow := w_utcnow w; w_mkstemp := w_mkstemp w;
     w_connect := w_connect w; w_cursor := w_cursor w;
     w_execute := w_execute w;
     w_fetch := w_fetch w; w_cursor_close := w_cursor_close w;
     w_open_w := w_open_w w; w_write := w_write w; w_open_r := w_open_r w;
     w_mkcol := w_mkcol w; w_put := w_put w; w_remove := f |}.

(** The local path a run works on, when it gets one. *)
Definition local_path_of (w : world) (a : args) : option str :=
  if opt_truthy (local_temp a) then Some (or_else (local_temp a) [])
  else match w_mkstemp w with
       | Fine path => Some path
       | Fails _ => None
       end.

Definition is_put (e : event) : bool :=
  match e with EPut _ _ _ => true | _ => false end.

Definition not_put (e : event) : bool := negb (is_put e).

Definition is_remove (e : event) : bool :=
  match e with ERemove _ => true | _ => false end.

Definition not_remove (e : event) : bool := negb (is_remove e).

(** Events of the database and of the local file it is exported to. *)
Definition is_export_event (e : event) : bool :=
  match e with
  | EConnect _ | ECursor | EExecute _ | ECursorClose | EConnClose
  | EOpenW _ | EWrite _ _ => true
  | _ => false
  end.

(** The errors the query stage lets through: connection, query and
    serialization errors. *)
Definition is_export_error (e : exn) : bool :=
  match e with
  | PyException ConnectionError _ | PyException QueryError _
  | PyException SerializationError _ => true
  | _ => false
  end.

(** The fields written for a fetched row. *)
Definition row_fields (names : list str) (vals : list value) : list str :=
  map value_text (dict_to_list names (real_dict_row names vals)).

(** A text without CR and LF. *)
Definition no_newline (s : str) : bool := forallb (fun c => negb (is_nl c)) s.

(** A computation that only adds events of some kind to the trace. *)
Definition emits {A} (P : event -> bool) (m : M A) : Prop :=
  forall s, exists l, trace (snd (m s)) = trace s ++ l /\ forallb P l = true.

(* ================================================================== *)
(** * Sample runs *)

Module Sample.

Definition no_files : str -> option str := fun _ => None.

(** A database with two columns and two rows, a server that creates every
    directory and accepts the upload. *)
Definition calm : world :=
  {| w_utcnow := lit "2024-01-01_000000";
     w_mkstemp := Fine (lit "/tmp/pg_query_x.csv");
     w_connect := fun _ => None;
     w_cursor := None;
     w_execute := fun _ => Fine [lit "id"; lit "name"];
     w_fetch := [Fine [PyOther (lit "1"); PyStr (lit "Ann, B.")];
                 Fine [PyOther (lit "2"); PyNone]];
     w_cursor_close := None;
     w_open_w := fun _ => None;
     w_write := fun _ => None;
     w_open_r := fun _ => None;
     w_mkcol := fun _ _ => Response 201 [];
     w_put := fun _ _ => Response 201 [];
     w_remove := fun _ => None |}.

Definition with_mkcol (f : nat -> str -> reply) (w : world) : world :=
  {| w_utcnow := w_utcnow w; w_mkstemp := w_mkstemp w;
     w_connect := w_connect w; w_cursor := w_cursor w;
     w_execute := w_execute w;
     w_fetch := w_fetch w; w_cursor_close := w_cursor_close w;
     w_open_w := w_open_w w; w_write := w_write w; w_open_r := w_open_r w;
     w_mkcol := f; w_put := w_put w; w_remove := w_remove w |}.

Definition with_put (f : str -> str -> reply) (w : world) : world :=
  {| w_utcnow := w_utcnow w; w_mkstemp := w_mkstemp w;
     w_connect := w_connect w; w_cursor := w_cursor w;
     w_execute := w_execute w;
     w_fetch := w_fetch w; w_cursor_close := w_cursor_close w;
     w_open_w := w_open_w w; w_write := w_write w; w_open_r := w_open_r w;
     w_mkcol := w_mkcol w; w_put := f; w_remove := w_remove w |}.

Definition with_fetch (rows : list (outcome (list value))) (w : world)
  : world :=
  {| w_utcnow := w_utcnow w; w_mkstemp := w_mkstemp w;
     w_connect := w_connect w; w_cursor := w_cursor w;
     w_execute := w_execute w;
     w_fetch := rows; w_cursor_close := w_cursor_close w;
     w_open_w := w_open_w w; w_write := w_write w; w_open_r := w_open_r w;
     w_mkcol := w_mkcol w; w_put := w_put w; w_remove := w_remove w |}.

(** A database whose only column holds a text of two lines. *)
Definition notes : world :=
  {| w_utcnow := lit "2024-01-01_000000";
     w_mkstemp := Fine (lit "/tmp/pg_query_x.csv");
     w_connect := fun _ => None;
     w_cursor := None;
     w_execute := fun _ => Fine [lit "note"];
     w_fetch := [Fine [PyStr (lit "a" ++ [LF] ++ lit "b")]];
     w_cursor_close := None;
     w_open_w := fun _ => None;
     w_write := fun _ => None;
     w_open_r := fun _ => None;
     w_mkcol := fun _ _ => Response 201 [];
     w_put := fun _ _ => Response 201 [];
     w_remove := fun _ => None |}.


(** A database that accepts the connection, on which the cursor cannot be
    created. *)
Definition no_cursor : world :=
  {| w_utcnow := lit "2024-01-01_000000";
     w_mkstemp := Fine (lit "/tmp/pg_query_x.csv");
     w_connect := fun _ => None;
     w_cursor := Some (lit "cursor refused");
     w_execute := fun _ => Fine [lit "id"; lit "name"];
     w_fetch := [];
     w_cursor_close := None;
     w_open_w := fun _ => None;
     w_write := fun _ => None;
     w_open_r := fun _ => None;
     w_mkcol := fun _ _ => Response 201 [];
     w_put := fun _ _ => Response 201 [];
     w_remove := fun _ => None |}.

(** A database that refuses the connection. *)
Definition offline : world :=
  {| w_utcnow := lit "2024-01-01_000000";
     w_mkstemp := Fine (lit "/tmp/pg_query_x.csv");
     w_connect := fun _ => Some (lit "connection refused");
     w_cursor := None;
     w_execute := fun _ => Fails (lit "no connection");
     w_fetch := [];
     w_cursor_close := None;
     w_open_w := fun _ => None;
     w_write := fun _ => None;
     w_open_r := fun _ => None;
     w_mkcol := fun _ _ => Response 201 [];
     w_put := fun _ _ => Response 201 [];
     w_remove := fun _ => None |}.

Definition params : conn_params :=
  {| host := lit "localhost"; port := lit "5432";
     user := Some (lit "me"); password := None;
     dbname := Some (lit "shop") |}.

Definition cli : args :=
  {| pg_host := lit "localhost"; pg_port := lit "5432";
     pg_user := Some (lit "me"); pg_password := None;
     pg_database := Some (lit "shop");
     query := lit "SELECT id, name FROM users";
     yandex_login := Some (lit "me");
     remote_dir := lit "a/b/c";
     remote_name := Some (lit "users.csv");
     local_temp := None |}.

Definition with_local_temp (path : option str) (a : args) : args :=
  {| pg_host := pg_host a; pg_port := pg_port a; pg_user := pg_user a;
     pg_password := pg_password a; pg_database := pg_database a;
     query := query a; yandex_login := yandex_login a;
     remote_dir := remote_dir a; remote_name := remote_name a;
     local_temp := path |}.

Definition token : option str := Some (lit "secret").

Definition put_url : str := lit "https://webdav.yandex.ru/a/b/c/users.csv".

(** The file the sample database exports. *)
Definition exported : str :=
  csv_text [[lit "id"; lit "name"]; [lit "1"; lit "Ann, B."]; [lit "2"; []]].

Definition auth : credentials := (lit "me", lit "secret").

End Sample.

(* ================================================================== *)
(** * Specification-side notions *)

(** The URLs of the container-creation requests recorded in a trace. *)
Fixpoint mkcol_requests (t : list event) : list str :=
  match t with
  | [] => []
  | EMkcol url _ :: t' => url :: mkcol_requests t'
  | _ :: t' => mkcol_requests t'
  end.

(** The URL of the [k]-th accumulated prefix of a list of segments. *)
Definition prefix_url (parts : list str) (k : nat) : str :=
  base_webdav ++ [slash] ++ join [slash] (firstn k parts).

Definition prefix_urls (parts : list str) : list str :=
  map (prefix_url parts) (seq 1 (length parts)).

(** What the directory loop prints after one request, by the answer. *)
Definition mkcol_report (url : str) (r : reply) : list event :=
  match r with
  | Failed what => [EPrint Stdout (MsgMkcolFailed url what)]
  | Response status _ =>
      if ((status =? 201) || (status =? 405) || (status =? 409)
          || ((200 <=? status) && (status <? 300)))%Z
      then []
      else [EPrint Stdout (MsgMkcolStatus url status)]
  end.

(** The trace of the directory loop over the given URLs, the first
    request being number [i]. *)
Fixpoint mkcol_trace (w : world) (auth : credentials) (i : nat)
    (urls : list str) : list event :=
  match urls with
  | [] => []
  | u :: rest =>
      EMkcol u auth :: mkcol_report u (w_mkcol w i u)
        ++ mkcol_trace w auth (S i) rest
  end.

(** Requests sent to the remote store. *)
Definition is_request (e : event) : bool :=
  match e with EMkcol _ _ | EPut _ _ _ => true | _ => false end.

Definition not_request (e : event) : bool := negb (is_request e).

(** The credentials a request carries, when the event is a request. *)
Definition auth_of (e : event) : option credentials :=
  match e with
  | EMkcol _ auth | EPut _ auth _ => Some auth
  | _ => None
  end.

(** Events that carry no credentials, or the given ones. *)
Definition carries (auth : credentials) (e : event) : bool :=
  match auth_of e with
  | Some (login, secret) =>
      str_eqb login (fst auth) && str_eqb secret (snd auth)
  | None => true
  end.

(** The upload requests recorded in a trace, as pairs of URL and body. *)
Fixpoint put_requests (t : list event) : list (str * str) :=
  match t with
  | [] => []
  | EPut url _ data :: t' => (url, data) :: put_requests t'
  | _ :: t' => put_requests t'
  end.

(** Lines 141-176: what the body of [main] does once the query stage has
    returned. *)
Definition publish (w : world) (a : args) (yad_token : str)
    (remote_filename local_path : str) : M unit :=
  let url := remote_file_url (remote_dir a) remote_filename in
  let auth := (or_else (yandex_login a) [], yad_token) in
  make_remote_dirs w auth (remote_dir a) ;;
  print Stdout (MsgUploading local_path url) ;;
  resp <- upload_file_to_yadisk w local_path url auth ;;
  report_upload remote_filename resp.

(** The errors that come from the query stage. *)
Definition from_query_stage (e : exn) : bool :=
  match e with
  | PyException ConnectionError _ | PyException CursorError _
  | PyException QueryError _ | PyException SerializationError _ => true
  | _ => false
  end.

(** Is the status of a response a success for [main]? *)
Definition is_2xx (status : Z) : bool :=
  ((200 <=? status) && (status <? 300))%Z.

(** A relation between the state before and the state after that a
    computation keeps, whatever state it starts from. *)
Definition keeps {A} (R : sys -> sys -> Prop) (m : M A) : Prop :=
  forall s, R s (snd (m s)).

(** The files other than [path] are as they were. *)
Definition other_files (path : str) (s s' : sys) : Prop :=
  forall q, q <> path -> fs s' q = fs s q.

(** No file has changed. *)
Definition same_files (s s' : sys) : Prop := forall q, fs s' q = fs s q.

(** The database handles are as they were. *)
Definition same_handles (s s' : sys) : Prop :=
  conn_open s' = conn_open s /\ cursor_open s' = cursor_open s.

(* ================================================================== *)
(** * The smoke test of test.py

    A script of its own: it makes a schema and a table, inserts a row
    unless it is there, prints the table, and reports any error instead of
    raising it.  Its model has its own world, state and actions. *)

Module Smoke.

(** The four statements the script runs, by what they are composed of. *)
Inductive statement :=
| CreateSchema (schema : str)
| CreateTable (schema table : str)
| InsertIfAbsent (schema table name : str)
| SelectAll (schema table : str).

(** An exception: a [psycopg2.Error], or any other [Exception]. *)
Inductive error :=
| PgError (what : str)
| OtherError (what : str).

(** The lines the script prints, one constructor per [print]. *)
Inductive line :=
| SchemaReady (schema : str)
| TableReady (schema table : str)
| DataAdded
| Header (schema table : str)
| Rule (width : nat)
| Row (id name created_at : value)
| Count (n : nat)
| Closed
| PgFailed (what : str)
| Failed (what : str).

Record params := {
  host : str;
  port : Z;
  user : str;
  password : str;
  database : str
}.

Inductive action :=
| Connect (p : params)
| SetAutocommit
| Cursor
| Execute (st : statement)
| FetchAll
| CloseCursor
| CloseConn
| Print (l : line).

Inductive fetched :=
| Rows (rows : list (list value))
| FetchFailed (e : error).

(** What the database answers to each call. *)
Record world := {
  connect : option error;
  set_isolation_level : option error;
  cursor : option error;
  execute : statement -> option error;
  fetchall : fetched;
  close_cursor : option error
}.

Record state := {
  connected : bool;
  has_cursor : bool;
  actions : list action
}.

Definition start : state :=
  {| connected := false; has_cursor := false; actions := [] |}.

Definition S (A : Type) := state -> (A + error) * state.

Definition pure {A} (a : A) : S A := fun s => (inl a, s).

Definition fail {A} (e : error) : S A := fun s => (inr e, s).

Definition andthen {A B} (m : S A) (k : A -> S B) : S B :=
  fun s =>
    match m s with
    | (inl a, s') => k a s'
    | (inr e, s') => (inr e, s')
    end.

Notation "x <<- m ;;; k" := (andthen m (fun x => k))
  (at level 61, m at next level, right associativity).
Notation "m ;;; k" := (andthen m (fun _ => k))
  (at level 61, right associativity).

(** The state after some more actions. *)
Definition more (s : state) (l : list action) : state :=
  {| connected := connected s; has_cursor := has_cursor s;
     actions := actions s ++ l |}.

Definition act (a : action) : S unit := fun s => (inl tt, more s [a]).

Definition say (l : line) : S unit := act (Print l).

Definition guard (o : option error) : S unit :=
  match o with
  | Some e => fail e
  | None => pure tt
  end.

Definition set_connected (b : bool) : S unit :=
  fun s => (inl tt, {| connected := b; has_cursor := has_cursor s;
                       actions := actions s |}).

Definition set_has_cursor (b : bool) : S unit :=
  fun s => (inl tt, {| connected := connected s; has_cursor := b;
                       actions := actions s |}).

Definition conn_params : params :=
  {| host := lit "localhost"; port := 5432; user := lit "postgres";
     password := lit "admin"; database := lit "postgres" |}.

Definition schema_name : str := lit "test_schema".
Definition table_name : str := lit "test_table".

(** The name of the sample row, as the bytes of its UTF-8 encoding. *)
Definition sample_name : str :=
  map ascii_of_nat
    [208; 162; 208; 181; 209; 129; 209; 130; 208; 190; 208; 178; 208; 176;
     209; 143; 32; 208; 183; 208; 176; 208; 191; 208; 184; 209; 129; 209;
     140].

Section Script.

Variable w : world.

Definition cur_execute (st : statement) : S unit :=
  act (Execute st) ;;; guard (execute w st).

Definition cur_fetchall : S (list (list value)) :=
  act FetchAll ;;;
  match fetchall w with
  | Rows rows => pure rows
  | FetchFailed e => fail e
  end.

(** Lines 66-67: a row shorter than three fields raises [IndexError]. *)
Fixpoint print_rows (rows : list (list value)) : S unit :=
  match rows with
  | [] => pure tt
  | row :: rest =>
      match row with
      | id :: name :: created_at :: _ =>
          say (Row id name created_at) ;;; print_rows rest
      | _ => fail (OtherError (lit "tuple index out of range"))
      end
  end.

(** Lines 19-74: the body of the [try]. *)
Definition body : S unit :=
  act (Connect conn_params) ;;; guard (connect w) ;;; set_connected true ;;;
  act SetAutocommit ;;; guard (set_isolation_level w) ;;;
  act Cursor ;;; guard (cursor w) ;;; set_has_cursor true ;;;
  cur_execute (CreateSchema schema_name) ;;;
  say (SchemaReady schema_name) ;;;
  cur_execute (CreateTable schema_name table_name) ;;;
  say (TableReady schema_name table_name) ;;;
  cur_execute (InsertIfAbsent schema_name table_name sample_name) ;;;
  say DataAdded ;;;
  cur_execute (SelectAll schema_name table_name) ;;;
  rows <<- cur_fetchall ;;;
  say (Header schema_name table_name) ;;;
  say (Rule 60) ;;;
  print_rows rows ;;;
  say (Rule 60) ;;;
  say (Count (length rows)) ;;;
  act CloseCursor ;;; guard (close_cursor w) ;;; set_has_cursor false ;;;
  act CloseConn ;;; set_has_cursor false ;;; set_connected false ;;;
  say Closed.

(** Lines 5-79: the two [except] clauses catch every exception. *)
Definition main : S unit :=
  fun s =>
    match body s with
    | (inl tt, s') => (inl tt, s')
    | (inr (PgError what), s') => say (PgFailed what) s'
    | (inr (OtherError what), s') => say (Failed what) s'
    end.

End Script.

(** The lines printed and the statements run, in order. *)
Fixpoint printed (l : list action) : list line :=
  match l with
  | [] => []
  | Print x :: l' => x :: printed l'
  | _ :: l' => printed l'
  end.

Fixpoint executed (l : list action) : list statement :=
  match l with
  | [] => []
  | Execute st :: l' => st :: executed l'
  | _ :: l' => executed l'
  end.

Definition is_close_conn (a : action) : bool :=
  match a with CloseConn => true | _ => false end.

Definition error_line (e : error) : line :=
  match e with
  | PgError what => PgFailed what
  | OtherError what => Failed what
  end.

Definition row_line (row : list value) : line :=
  Row (nth 0 row PyNone) (nth 1 row PyNone) (nth 2 row PyNone).

(** A database on which everything works and that holds two rows. *)
Definition calm : world :=
  {| connect := None; set_isolation_level := None; cursor := None;
     execute := fun _ => None;
     fetchall := Rows [[PyOther (lit "1"); PyStr (lit "sample");
                        PyOther (lit "2024-01-01")];
                       [PyOther (lit "2"); PyStr (lit "other");
                        PyOther (lit "2024-01-02")]];
     close_cursor := None |}.

(** A database in which the table cannot be created. *)
Definition read_only : world :=
  {| connect := None; set_isolation_level := None; cursor := None;
     execute := fun st => match st with
                          | CreateTable _ _ => Some (PgError (lit "denied"))
                          | _ => None
                          end;
     fetchall := Rows [];
     close_cursor := None |}.

End Smoke.

(* ================================================================== *)
(** * Strings: stripping, splitting, joining *)

Section Strings.

Variable c : ascii.

Lemma str_eqb_eq (a b : str) : str_eqb a b = true <-> a = b.
Proof.
  revert b; induction a as [|x a IH]; intros [|y b]; simpl;
    try (split; congruence).
  rewrite andb_true_iff, Ascii.eqb_eq, IH. split.
  - intros [-> ->]; reflexivity.
  - intros H; inversion H; auto.
Qed.

Lemma str_eqb_refl (a : str) : str_eqb a a = true.
Proof. apply str_eqb_eq; reflexivity. Qed.

Lemma str_eqb_neq (a b : str) : str_eqb a b = false <-> a <> b.
Proof.
  rewrite <- str_eqb_eq. destruct (str_eqb a b); split; congruence.
Qed.

Lemma lstrip_all (pre s : str) :
  Forall (eq c) pre -> lstrip c (pre ++ s) = lstrip c s.
Proof.
  induction 1 as [|x pre Hx _ IH]; simpl; auto.
  subst x. rewrite Ascii.eqb_refl. exact IH.
Qed.

Lemma lstrip_only (s : str) : Forall (eq c) s -> lstrip c s = [].
Proof.
  intros H. rewrite <- (app_nil_r s). rewrite lstrip_all; auto.
Qed.

(** [lstrip] returns either nothing or a string that starts with another
    character. *)
Lemma lstrip_head (s : str) :
  lstrip c s = [] \/ exists x r, lstrip c s = x :: r /\ x <> c.
Proof.
  induction s as [|x s IH]; simpl; auto.
  destruct (Ascii.eqb_spec x c); auto.
  right; exists x, s; auto.
Qed.

Lemma lstrip_fix (x : ascii) (r : str) : x <> c -> lstrip c (x :: r) = x :: r.
Proof.
  intros H. simpl. destruct (Ascii.eqb_spec x c); congruence.
Qed.

Lemma lstrip_app_keep (s t : str) :
  lstrip c s <> [] -> lstrip c (s ++ t) = lstrip c s ++ t.
Proof.
  induction s as [|x s IH]; simpl; [congruence|].
  destruct (Ascii.eqb x c); auto.
Qed.

Lemma rstrip_all (s post : str) :
  Forall (eq c) post -> rstrip c (s ++ post) = rstrip c s.
Proof.
  intros H. unfold rstrip. rewrite rev_app_distr, lstrip_all; auto.
  apply Forall_rev; assumption.
Qed.

Lemma strip_padding (pre d post : str) :
  Forall (eq c) pre -> Forall (eq c) post ->
  strip c (pre ++ d ++ post) = strip c d.
Proof.
  intros Hpre Hpost. unfold strip. rewrite lstrip_all by assumption.
  destruct (lstrip_head d) as [E | (x & r & E & Hx)].
  - assert (Hd : Forall (eq c) d).
    { clear - E. induction d as [|y d IH]; simpl in *; auto.
      destruct (Ascii.eqb_spec y c); [subst; auto | discriminate]. }
    rewrite E, lstrip_only; auto. apply Forall_app; auto.
  - rewrite lstrip_app_keep by congruence. apply rstrip_all; assumption.
Qed.

Lemma lstrip_decomp (s : str) :
  exists pre, s = pre ++ lstrip c s /\ Forall (eq c) pre.
Proof.
  induction s as [|x s (pre & E & H)]; simpl.
  - exists []; auto.
  - destruct (Ascii.eqb_spec x c).
    + exists (x :: pre); split; [simpl; congruence | auto].
    + exists []; auto.
Qed.

(** The result of [strip] neither ends nor starts with the character. *)
Lemma strip_last (s r : str) (z : ascii) : strip c s = r ++ [z] -> z <> c.
Proof.
  unfold strip, rstrip. intros H.
  apply (f_equal (@rev ascii)) in H.
  rewrite rev_involutive, rev_app_distr in H. simpl in H.
  destruct (lstrip_head (rev (lstrip c s))) as [E | (y & t & E & Hy)];
    congruence.
Qed.

Lemma strip_head (s r : str) (x : ascii) : strip c s = x :: r -> x <> c.
Proof.
  unfold strip, rstrip. intros H.
  destruct (lstrip_head s) as [E | (y & t & E & Hy)].
  { rewrite E in H; discriminate. }
  rewrite E in H.
  destruct (lstrip_decomp (rev (y :: t))) as (pre & D & Hpre).
  apply (f_equal (@rev ascii)) in D.
  rewrite rev_involutive, rev_app_distr, H in D.
  simpl in D. inversion D; subst; assumption.
Qed.

End Strings.

Section Splitting.

Variable c : ascii.

Lemma split_nonempty (s : str) : split c s <> [].
Proof.
  destruct s as [|x r]; simpl; [discriminate|].
  destruct (Ascii.eqb x c); [discriminate|].
  destruct (split c r); discriminate.
Qed.

Lemma split_other (x : ascii) (r : str) :
  x <> c -> exists h t, split c r = h :: t /\ split c (x :: r) = (x :: h) :: t.
Proof.
  intros H. simpl. destruct (Ascii.eqb_spec x c); [contradiction|].
  destruct (split c r) as [|h t] eqn:E.
  - destruct (split_nonempty _ E).
  - exists h, t; auto.
Qed.

(** A string without the separator is its own single segment. *)
Lemma split_plain (s : str) : contains c s = false -> split c s = [s].
Proof.
  induction s as [|x r IH]; simpl; auto.
  rewrite orb_false_iff. intros [Hx Hr].
  rewrite Ascii.eqb_sym, Hx, (IH Hr). reflexivity.
Qed.

Lemma split_app (s rest : str) :
  contains c s = false -> split c (s ++ c :: rest) = s :: split c rest.
Proof.
  induction s as [|x r IH]; simpl.
  - intros _. rewrite Ascii.eqb_refl. reflexivity.
  - rewrite orb_false_iff. intros [Hx Hr].
    rewrite Ascii.eqb_sym, Hx, (IH Hr). reflexivity.
Qed.

Lemma split_join (segs : list str) :
  segs <> [] -> Forall (fun s => contains c s = false) segs ->
  split c (join [c] segs) = segs.
Proof.
  induction segs as [|s [|s' rest] IH]; [congruence | |]; intros _ H.
  - simpl. apply split_plain. inversion H; assumption.
  - inversion H as [|? ? Hs Hrest]; subst.
    change (join [c] (s :: s' :: rest)) with (s ++ c :: join [c] (s' :: rest)).
    rewrite split_app by assumption. f_equal. apply IH; [discriminate | auto].
Qed.

Lemma split_last (s : str) (z : ascii) :
  z <> c -> exists t, last (split c (s ++ [z])) [] = t ++ [z].
Proof.
  intros Hz. induction s as [|x r (t & IH)].
  - exists []. simpl. destruct (Ascii.eqb_spec z c); [contradiction|].
    reflexivity.
  - change ((x :: r) ++ [z]) with (x :: (r ++ [z])). simpl.
    destruct (split c (r ++ [z])) as [|h l] eqn:E.
    { destruct (split_nonempty _ E). }
    destruct (Ascii.eqb x c).
    + exists t. exact IH.
    + destruct l as [|h' l'].
      * simpl in IH. subst h. exists (x :: t); reflexivity.
      * exists t. exact IH.
Qed.

End Splitting.

Lemma join_snoc (sep : str) (l : list str) (p : str) :
  l <> [] -> join sep (l ++ [p]) = join sep l ++ sep ++ p.
Proof.
  induction l as [|x [|y r] IH]; [congruence | reflexivity |].
  intros _. change (join sep (x :: (y :: r) ++ [p]) =
                    (x ++ sep ++ join sep (y :: r)) ++ sep ++ p).
  change ((y :: r) ++ [p]) with (y :: (r ++ [p])) in *.
  change (join sep (x :: y :: r ++ [p]))
    with (x ++ sep ++ join sep (y :: r ++ [p])).
  rewrite IH by discriminate. rewrite <- !app_assoc. reflexivity.
Qed.

(* ================================================================== *)
(** * States and traces *)

Lemma add_trace_nil (s : sys) : add_trace s [] = s.
Proof. destruct s; unfold add_trace; simpl. rewrite app_nil_r. reflexivity. Qed.

Lemma add_trace_app (s : sys) (l1 l2 : list event) :
  add_trace (add_trace s l1) l2 = add_trace s (l1 ++ l2).
Proof. unfold add_trace; simpl. rewrite app_assoc. reflexivity. Qed.

Lemma mkcol_requests_app (l1 l2 : list event) :
  mkcol_requests (l1 ++ l2) = mkcol_requests l1 ++ mkcol_requests l2.
Proof.
  induction l1 as [|e l1 IH]; simpl; auto.
  destruct e; simpl; rewrite ?IH; reflexivity.
Qed.

Lemma mkcol_requests_report (url : str) (r : reply) :
  mkcol_requests (mkcol_report url r) = [].
Proof.
  destruct r as [status text | what]; simpl; auto.
  destruct (_ || _)%bool; reflexivity.
Qed.

Lemma mkcol_requests_trace (w : world) (auth : credentials) (i : nat)
    (urls : list str) :
  mkcol_requests (mkcol_trace w auth i urls) = urls.
Proof.
  revert i; induction urls as [|u urls IH]; intros i; simpl; auto.
  rewrite mkcol_requests_app, mkcol_requests_report, IH. reflexivity.
Qed.

(* ================================================================== *)
(** * The directory loop *)

Section Directories.

Variable w : world.
Variable auth : credentials.

(** One turn of the loop never raises: it logs the request and, by the
    answer, at most one warning. *)
Lemma mkcol_turn (i : nat) (url : str) (s : sys) :
  try_except
    (status <- request_mkcol w i url auth ;;
     if ((status =? 201) || (status =? 405))%Z then ret tt
     else if (status =? 409)%Z then ret tt
     else if negb ((200 <=? status) && (status <? 300))%Z
          then print Stdout (MsgMkcolStatus url status)
          else ret tt)
    (fun what => print Stdout (MsgMkcolFailed url what)) s
  = (Ok tt, add_trace s (EMkcol url auth :: mkcol_report url (w_mkcol w i url))).
Proof.
  unfold try_except, bind, request_mkcol, log, mkcol_report. simpl.
  destruct (w_mkcol w i url) as [status text | what]; simpl.
  - unfold bind, ret, print, log; simpl.
    destruct (status =? 201)%Z, (status =? 405)%Z, (status =? 409)%Z;
      simpl; try reflexivity.
    destruct ((200 <=? status) && (status <? 300))%Z; simpl;
      rewrite ?add_trace_app; reflexivity.
  - unfold print, log. rewrite add_trace_app. reflexivity.
Qed.

(** The loop once a non-empty prefix [accum] has been built from the
    segments [done]. *)
Lemma mkcol_loop_tail (rest done : list str) (accum : str) (i : nat)
    (s : sys) :
  truthy accum = true -> accum = join [slash] done ->
  mkcol_loop w auth rest accum i s =
  (Ok tt,
   add_trace s
     (mkcol_trace w auth i
        (map (prefix_url (done ++ rest)) (seq (S (length done)) (length rest))))).
Proof.
  revert done accum i s.
  induction rest as [|p rest IH]; intros done accum i s Ht Ha.
  - simpl. rewrite add_trace_nil. reflexivity.
  - assert (Hdone : done <> []) by (intros ->; subst accum; discriminate).
    cbn [mkcol_loop]. rewrite Ht. unfold bind at 1. rewrite mkcol_turn.
    assert (Hacc : accum ++ [slash] ++ p = join [slash] (done ++ [p])).
    { rewrite join_snoc by assumption. congruence. }
    rewrite (IH (done ++ [p]) (accum ++ [slash] ++ p) (S i)).
    + rewrite add_trace_app. rewrite length_app, Nat.add_1_r.
      rewrite <- app_assoc.
      change ([p] ++ rest) with (p :: rest).
      cbn [length seq map mkcol_trace].
      assert (Hu : prefix_url (done ++ p :: rest) (S (length done))
                   = base_webdav ++ [slash] ++ accum ++ [slash] ++ p).
      { unfold prefix_url.
        replace (S (length done)) with (length done + 1) by lia.
        rewrite firstn_app_2. change (firstn 1 (p :: rest)) with [p].
        rewrite <- Hacc. reflexivity. }
      rewrite Hu. reflexivity.
    + destruct accum; [discriminate | reflexivity].
    + exact Hacc.
Qed.

(** The loop from the start, on the segments of a stripped path: either
    the single empty segment, or a list whose first segment is not empty. *)
Lemma mkcol_loop_run (parts : list str) (s : sys) :
  parts = [[]] \/ (exists x h t, parts = (x :: h) :: t) ->
  mkcol_loop w auth parts [] 0 s =
  (Ok tt, add_trace s (mkcol_trace w auth 0 (prefix_urls parts))).
Proof.
  intros [-> | (x & h & t & ->)].
  - cbn [mkcol_loop truthy]. unfold bind at 1. rewrite mkcol_turn.
    unfold ret, prefix_urls. cbn [length seq map mkcol_trace].
    rewrite !app_nil_r. reflexivity.
  - cbn [mkcol_loop truthy]. unfold bind at 1. rewrite mkcol_turn.
    rewrite (@mkcol_loop_tail t [x :: h] (x :: h) 1 _ eq_refl eq_refl).
    rewrite add_trace_app. unfold prefix_urls.
    cbn [length seq map mkcol_trace]. reflexivity.
Qed.

(** The segments of a stripped path have that shape. *)
Lemma stripped_parts (d : str) :
  let parts := split slash (strip slash d) in
  parts = [[]] \/ (exists x h t, parts = (x :: h) :: t).
Proof.
  simpl. destruct (strip slash d) as [|x r] eqn:E; [left; reflexivity|].
  right. pose proof (strip_head _ E) as Hx.
  destruct (split_other r Hx) as (h & t & _ & ->). eauto.
Qed.

Lemma make_remote_dirs_run (d : str) (s : sys) :
  make_remote_dirs w auth d s =
  (Ok tt,
   add_trace s
     (mkcol_trace w auth 0 (prefix_urls (split slash (strip slash d))))).
Proof. unfold make_remote_dirs. apply mkcol_loop_run, stripped_parts. Qed.

End Directories.

(** A path made of non-empty, slash-free segments is left alone by
    [strip], and splits back into its segments. *)
Lemma rstrip_fix (c z : ascii) (r : str) :
  z <> c -> rstrip c (r ++ [z]) = r ++ [z].
Proof.
  intros H. unfold rstrip. rewrite rev_app_distr. change (rev [z]) with [z].
  change ([z] ++ rev r) with (z :: rev r). rewrite lstrip_fix by assumption.
  change (z :: rev r) with ([z] ++ rev r).
  rewrite rev_app_distr, rev_involutive. reflexivity.
Qed.

Lemma contains_last (c z : ascii) (t : str) :
  contains c (t ++ [z]) = false -> z <> c.
Proof.
  unfold contains. rewrite existsb_app. simpl.
  rewrite !orb_false_iff. intros (_ & H & _) ->.
  rewrite Ascii.eqb_refl in H. discriminate.
Qed.

Lemma join_ends (sep : str) (init : list str) (t : str) (z : ascii) :
  exists r, join sep (init ++ [t ++ [z]]) = r ++ [z].
Proof.
  destruct init as [|x init].
  - exists t; reflexivity.
  - rewrite join_snoc by discriminate.
    exists (join sep (x :: init) ++ sep ++ t).
    rewrite <- !app_assoc. reflexivity.
Qed.

Lemma strip_join (segs : list str) :
  segs <> [] ->
  Forall (fun seg => seg <> [] /\ contains slash seg = false) segs ->
  strip slash (join [slash] segs) = join [slash] segs.
Proof.
  intros Hne H. unfold strip.
  assert (Hl : lstrip slash (join [slash] segs) = join [slash] segs).
  { destruct segs as [|[|x seg] rest]; [congruence | |].
    - inversion H as [|? ? [Hs _] _]; congruence.
    - inversion H as [|? ? [_ Hs] _]; subst. unfold contains in Hs.
      cbn [existsb] in Hs.
      apply orb_false_iff in Hs as [Hx _].
      assert (x <> slash)
        by (intros ->; rewrite Ascii.eqb_refl in Hx; discriminate).
      destruct rest; simpl join; apply lstrip_fix; assumption. }
  rewrite Hl.
  destruct (exists_last Hne) as (init & lastseg & ->).
  apply Forall_app in H as [_ H]. inversion H as [|? ? [Hs Hc] _]; subst.
  destruct (exists_last Hs) as (t & z & ->).
  destruct (join_ends [slash] init t z) as (r & ->).
  apply rstrip_fix. eapply contains_last; eassumption.
Qed.

(* ================================================================== *)
(** * Properties of the directory part *)

(** C1.  For every remote directory, in every world (whatever each
    request is answered: 409, 405, any other status, or no answer at all),
    the directory step returns normally and issues exactly one
    container-creation request for each segment of the stripped path, for
    the accumulated prefixes from the shortest to the whole path.  For a
    path written as n non-empty segments joined by slashes these are the n
    segments: "a/b/c" gives the requests for "a", "a/b" and "a/b/c". *)
Theorem mkcol_one_request_per_prefix (w : world) (auth : credentials)
    (d : str) (s : sys) :
  let parts := split slash (strip slash d) in
  let run := make_remote_dirs w auth d s in
  fst run = Ok tt /\
  mkcol_requests (trace (snd run)) =
    mkcol_requests (trace s) ++
    map (fun k => base_webdav ++ [slash] ++ join [slash] (firstn k parts))
        (seq 1 (length parts)) /\
  length (mkcol_requests (trace (snd run))) =
    length (mkcol_requests (trace s)) + length parts /\
  (forall segs,
     segs <> [] ->
     Forall (fun seg => seg <> [] /\ contains slash seg = false) segs ->
     d = join [slash] segs -> parts = segs).
Proof.
  cbv zeta. rewrite make_remote_dirs_run.
  cbn [fst snd add_trace trace].
  rewrite mkcol_requests_app, mkcol_requests_trace.
  repeat split.
  - unfold prefix_urls. rewrite length_app, length_map, length_seq.
    reflexivity.
  - intros segs Hne H ->.
    assert (Hc : Forall (fun seg => contains slash seg = false) segs)
      by (eapply Forall_impl; [|exact H]; intros ? [_ ?]; auto).
    rewrite strip_join by assumption. apply split_join; assumption.
Qed.

(** The same for the path "a/b/c" and a server that answers 409, 405 and
    then nothing. *)
Lemma mkcol_one_request_per_prefix_abc :
  let w := Sample.with_mkcol
             (fun i _ => match i with
                         | 0 => Response 409 []
                         | 1 => Response 405 []
                         | _ => Failed (lit "timeout")
                         end) Sample.calm in
  let run := make_remote_dirs w Sample.auth (lit "a/b/c")
               (boot Sample.no_files) in
  fst run = Ok tt /\
  mkcol_requests (trace (snd run)) =
    [lit "https://webdav.yandex.ru/a"; lit "https://webdav.yandex.ru/a/b";
     lit "https://webdav.yandex.ru/a/b/c"] /\
  split slash (strip slash (lit "a/b/c")) = [lit "a"; lit "b"; lit "c"].
Proof.
  intros w.
  destruct (mkcol_one_request_per_prefix w Sample.auth (lit "a/b/c")
              (boot Sample.no_files)) as (H1 & H2 & _ & H4).
  split; [exact H1|]. split; [exact H2|].
  apply H4.
  - discriminate.
  - repeat constructor; discriminate.
  - reflexivity.
Defined.

(** C7, as the code has it.  The directory step never raises.  After each
    request it prints nothing when the answer is 409 (as for 201, 405 and
    every other 2xx status), it prints a warning on standard output when
    the answer is any other status, and it prints a warning when the
    request got no answer (a transport exception); in each case it goes on
    with the next segment. *)
Theorem mkcol_outcomes_never_abort (w : world) (auth : credentials) (d : str)
    (s : sys) :
  make_remote_dirs w auth d s =
    (Ok tt,
     add_trace s
       (mkcol_trace w auth 0 (prefix_urls (split slash (strip slash d))))) /\
  (forall url text, mkcol_report url (Response 409 text) = []) /\
  (forall url status text,
     (status < 200 \/ 300 <= status)%Z -> status <> 405%Z -> status <> 409%Z ->
     mkcol_report url (Response status text) =
       [EPrint Stdout (MsgMkcolStatus url status)]) /\
  (forall url what,
     mkcol_report url (Failed what) = [EPrint Stdout (MsgMkcolFailed url what)]).
Proof.
  split; [apply make_remote_dirs_run|].
  split; [reflexivity|]. split; [|reflexivity].
  intros url status text Hrange H405 H409. unfold mkcol_report.
  replace (status =? 201)%Z with false by (symmetry; apply Z.eqb_neq; lia).
  replace (status =? 405)%Z with false by (symmetry; apply Z.eqb_neq; lia).
  replace (status =? 409)%Z with false by (symmetry; apply Z.eqb_neq; lia).
  replace ((200 <=? status) && (status <? 300))%Z with false; [reflexivity|].
  symmetry. apply andb_false_iff.
  destruct Hrange; [left; apply Z.leb_gt | right; apply Z.ltb_ge]; lia.
Qed.

Lemma mkcol_outcomes_never_abort_500 :
  mkcol_report (lit "https://webdav.yandex.ru/a") (Response 500 []) =
    [EPrint Stdout (MsgMkcolStatus (lit "https://webdav.yandex.ru/a") 500)].
Proof.
  destruct (mkcol_outcomes_never_abort Sample.calm Sample.auth (lit "a")
              (boot Sample.no_files)) as (_ & _ & H & _).
  apply H; lia.
Defined.

(** C7 as the specification words it fails: answered 409, the directory
    step prints no warning at all. *)
Lemma mkcol_conflict_is_silent :
  let w := Sample.with_mkcol (fun _ _ => Response 409 []) Sample.calm in
  ~ exists to m,
      In (EPrint to m)
         (trace (snd (make_remote_dirs w Sample.auth (lit "a")
                        (boot Sample.no_files)))).
Proof.
  intros w (to & m & H). vm_compute in H.
  destruct H as [H | []]. discriminate.
Qed.

Lemma stripped_parts_ends (d : str) :
  let parts := split slash (strip slash d) in
  parts = [[]] \/ (hd [] parts <> [] /\ last parts [] <> []).
Proof.
  simpl. destruct (strip slash d) as [|x r] eqn:E; [left; reflexivity|].
  right. split.
  - pose proof (strip_head _ E) as Hx.
    destruct (split_other r Hx) as (h & t & _ & ->). discriminate.
  - assert (Hne : x :: r <> []) by discriminate.
    destruct (exists_last Hne) as (r' & z & E').
    rewrite E' in *. pose proof (strip_last _ _ E) as Hz.
    destruct (split_last r' Hz) as (t & ->).
    destruct t; discriminate.
Qed.

(** C10.  Slashes in front of and behind the remote directory change
    nothing: the whole run, hence the container-creation requests and the
    upload URL, is the one of the bare directory.  The segments requested
    are those of the stripped path, whose first and last segment are not
    empty (unless the stripped path itself is empty). *)
Theorem remote_dir_slashes_ignored (w : world) (token : option str)
    (a : args) (files : str -> option str) (pre post : str) :
  Forall (eq slash) pre -> Forall (eq slash) post ->
  let padded := with_remote_dir (pre ++ remote_dir a ++ post) a in
  main w token padded (boot files) = main w token a (boot files) /\
  (forall auth s,
     make_remote_dirs w auth (remote_dir padded) s =
     make_remote_dirs w auth (remote_dir a) s) /\
  (forall name,
     remote_file_url (remote_dir padded) name =
     remote_file_url (remote_dir a) name) /\
  (let parts := split slash (strip slash (remote_dir padded)) in
   parts = [[]] \/ (hd [] parts <> [] /\ last parts [] <> [])).
Proof.
  intros Hpre Hpost padded.
  assert (E : strip slash (remote_dir padded) = strip slash (remote_dir a))
    by (apply strip_padding; assumption).
  repeat split.
  - unfold main, pipeline, make_remote_dirs, remote_file_url.
    rewrite E. reflexivity.
  - intros auth s. unfold make_remote_dirs. rewrite E. reflexivity.
  - intros name. unfold remote_file_url. rewrite E. reflexivity.
  - apply stripped_parts_ends.
Qed.

Lemma remote_dir_slashes_ignored_abc :
  let padded := with_remote_dir (lit "//a/b/c/") Sample.cli in
  main Sample.calm Sample.token padded (boot Sample.no_files) =
  main Sample.calm Sample.token Sample.cli (boot Sample.no_files).
Proof.
  assert (Hpre : Forall (eq slash) (lit "//")) by (repeat constructor).
  assert (Hpost : Forall (eq slash) (lit "/")) by (repeat constructor).
  exact (proj1 (@remote_dir_slashes_ignored Sample.calm Sample.token
                  Sample.cli Sample.no_files _ _ Hpre Hpost)).
Defined.

(* ================================================================== *)
(** * What a computation adds to the trace *)

Section Emits.

Context {A B : Type}.
Variable P : event -> bool.

Lemma emits_ret (a : A) : emits P (ret a).
Proof. intros s; exists []; simpl; rewrite app_nil_r; auto. Qed.

Lemma emits_raise (e : exn) : emits P (@raise A e).
Proof. intros s; exists []; simpl; rewrite app_nil_r; auto. Qed.

Lemma emits_bind (m : M A) (k : A -> M B) :
  emits P m -> (forall a, emits P (k a)) -> emits P (bind m k).
Proof.
  intros Hm Hk s. unfold bind. destruct (Hm s) as (l1 & E1 & F1).
  destruct (m s) as [[a | e] s1]; simpl in *.
  - destruct (Hk a s1) as (l2 & E2 & F2). exists (l1 ++ l2).
    rewrite E2, E1, app_assoc, forallb_app, F1, F2. auto.
  - exists l1; auto.
Qed.

Lemma emits_try_finally (body : M A) (cleanup : M unit) :
  emits P body -> emits P cleanup -> emits P (try_finally body cleanup).
Proof.
  intros Hb Hc s. unfold try_finally. destruct (Hb s) as (l1 & E1 & F1).
  destruct (body s) as [r s1]; simpl in *.
  destruct (Hc s1) as (l2 & E2 & F2).
  exists (l1 ++ l2). rewrite app_assoc, <- E1, forallb_app, F1, F2.
  destruct (cleanup s1) as [[[] | e] s2]; simpl in *; auto.
Qed.

Lemma emits_try_except (body : M A) (handler : str -> M A) :
  emits P body -> (forall what, emits P (handler what)) ->
  emits P (try_except body handler).
Proof.
  intros Hb Hh s. unfold try_except. destruct (Hb s) as (l1 & E1 & F1).
  destruct (body s) as [[a | [kind what | code]] s1]; simpl in *;
    try (exists l1; auto; fail).
  destruct (Hh what s1) as (l2 & E2 & F2). exists (l1 ++ l2).
  rewrite E2, E1, app_assoc, forallb_app, F1, F2. auto.
Qed.

End Emits.

Section EmitsBasic.

Variable P : event -> bool.

Lemma emits_log (e : event) : P e = true -> emits P (log e).
Proof. intros H s; exists [e]; simpl; rewrite H; auto. Qed.

Lemma emits_set_conn (b : bool) : emits P (set_conn b).
Proof. intros s; exists []; simpl; rewrite app_nil_r; auto. Qed.

Lemma emits_set_cursor (b : bool) : emits P (set_cursor b).
Proof. intros s; exists []; simpl; rewrite app_nil_r; auto. Qed.

Lemma emits_set_file (path : str) (v : option str) : emits P (set_file path v).
Proof. intros s; exists []; simpl; rewrite app_nil_r; auto. Qed.

Lemma emits_get_file (path : str) : emits P (get_file path).
Proof. intros s; exists []; simpl; rewrite app_nil_r; auto. Qed.

Lemma emits_check (kind : errkind) (o : option str) : emits P (check kind o).
Proof. destruct o; [apply emits_raise | apply emits_ret]. Qed.

End EmitsBasic.

Lemma emits_weaken {A} (P Q : event -> bool) (m : M A) :
  (forall e, P e = true -> Q e = true) -> emits P m -> emits Q m.
Proof.
  intros H Hm s. destruct (Hm s) as (l & E & F). exists l. split; auto.
  rewrite forallb_forall in *. auto.
Qed.

Create HintDb emits.

#[local] Hint Resolve emits_ret emits_raise emits_set_conn emits_set_cursor
  emits_set_file emits_get_file emits_check : emits.

(** Break a computation down to its primitive steps. *)
Ltac emits_step :=
  first
    [ solve [auto with emits]
    | apply emits_bind; [|intros ?]
    | apply emits_try_finally
    | apply emits_try_except; [|intros ?]
    | apply emits_log; reflexivity
    | match goal with
      | |- emits _ (match ?x with _ => _ end) => destruct x
      | |- emits _ (if ?x then _ else _) => destruct x
      | |- emits _ (let (_, _) := ?x in _) => destruct x
      end ].

Ltac emits_auto := repeat emits_step.

Section StagesEmit.

Variable w : world.

Lemma write_rows_emits (path : str) (names : list str) (i : nat)
    (rows : list (outcome (list value))) :
  emits is_export_event (write_rows w path names i rows).
Proof.
  revert i; induction rows as [|[vals | what] rows IH]; intros i; simpl;
    auto with emits.
  apply emits_bind; [|intros _; apply IH].
  unfold DictWriter_writerow, file_write. emits_auto.
Qed.

Lemma export_body_emits (q path : str) :
  emits is_export_event (export_body w q path).
Proof.
  unfold export_body, cur_execute, open_w, DictWriter_writeheader,
    DictWriter_writerow, file_write.
  pose proof write_rows_emits. emits_auto; auto.
Qed.

Lemma run_query_emits (p : conn_params) (q path : str) :
  emits is_export_event (run_query_and_write_csv w p q path).
Proof.
  unfold run_query_and_write_csv, release, pg_connect, conn_cursor,
    cur_close, conn_close.
  pose proof export_body_emits. emits_auto; auto.
Qed.

Lemma cleanup_emits_no_put (path : str) : emits not_put (cleanup w path).
Proof. unfold cleanup, print. emits_auto. Qed.

Lemma choose_local_path_emits (P : event -> bool) (a : args) :
  P EMkstemp = true -> emits P (choose_local_path w a).
Proof.
  intros H. unfold choose_local_path, os_mkstemp. emits_auto.
  apply emits_log; assumption.
Qed.

End StagesEmit.

(* ================================================================== *)
(** * The cleanup and the stages of [main] *)

Section Main.

Variable w : world.

(** The [finally] clause never raises. *)
Lemma cleanup_run (path : str) (s : sys) :
  cleanup w path s =
  match fs s path with
  | None => (Ok tt, s)
  | Some _ =>
      match w_remove w path with
      | None => (Ok tt, snd (set_file path None (add_trace s [ERemove path])))
      | Some what =>
          (Ok tt,
           add_trace s [ERemove path; EPrint Stderr (MsgCleanupFailed what)])
      end
  end.
Proof.
  unfold cleanup, bind, get_file. simpl.
  destruct (fs s path); [|reflexivity].
  unfold try_except, bind, log, check. simpl.
  destruct (w_remove w path); simpl; [|reflexivity].
  unfold print, log. rewrite add_trace_app. reflexivity.
Qed.

Lemma cleanup_ok (path : str) (s : sys) : fst (cleanup w path s) = Ok tt.
Proof.
  rewrite cleanup_run. destruct (fs s path); [|reflexivity].
  destruct (w_remove w path); reflexivity.
Qed.

Lemma mkcol_trace_no_put (auth : credentials) (i : nat) (urls : list str) :
  forallb not_put (mkcol_trace w auth i urls) = true.
Proof.
  revert i; induction urls as [|u urls IH]; intros i; simpl; auto.
  rewrite forallb_app, IH, andb_true_r.
  destruct (w_mkcol w i u) as [status text | what]; simpl; auto.
  destruct (_ || _)%bool; reflexivity.
Qed.

(** The body of [main] either stops before the upload request, or sends
    it and lets the answer decide. *)
Lemma pipeline_cases (a : args) (p : conn_params) (yad_token name lp : str)
    (s0 : sys) :
  let url := remote_file_url (remote_dir a) name in
  let auth := (or_else (yandex_login a) [], yad_token) in
  let run := pipeline w a p yad_token name lp s0 in
  (exists l, trace (snd run) = trace s0 ++ l /\ forallb not_put l = true) \/
  (exists l data,
     forallb not_put l = true /\
     match w_put w url data with
     | Response status text =>
         exists s', trace s' = trace s0 ++ l ++ [EPut url auth data] /\
                    run = report_upload name (status, text) s'
     | Failed what =>
         fst run = Raise (PyException TransportError what) /\
         trace (snd run) = trace s0 ++ l ++ [EPut url auth data]
     end).
Proof.
  intros url auth run.
  assert (Erun : run = pipeline w a p yad_token name lp s0) by reflexivity.
  clearbody run. unfold pipeline in Erun.
  fold url in Erun. fold auth in Erun.
  unfold bind at 1, print at 1, log at 1 in Erun.
  unfold bind at 1 in Erun.
  destruct (run_query_emits w p (query a) lp
              (add_trace s0 [EPrint Stdout (MsgQuerying lp)]))
    as (l1 & E1 & F1).
  assert (F1' : forallb not_put l1 = true).
  { apply forallb_forall. intros x Hx.
    rewrite forallb_forall in F1. specialize (F1 x Hx).
    destruct x; try discriminate; reflexivity. }
  destruct (run_query_and_write_csv w p (query a) lp _) as [[[] | e] s1];
    simpl in E1.
  2:{ left. exists ([EPrint Stdout (MsgQuerying lp)] ++ l1). subst run.
      cbn [snd]. rewrite E1, <- app_assoc. split; [reflexivity|].
      rewrite forallb_app, F1'. reflexivity. }
  unfold bind at 1 in Erun. rewrite make_remote_dirs_run in Erun.
  set (l2 := mkcol_trace w auth 0 _) in Erun.
  assert (F2 : forallb not_put l2 = true) by apply mkcol_trace_no_put.
  unfold bind at 1, print at 1, log at 1 in Erun.
  rewrite !add_trace_app in Erun.
  set (l3 := l2 ++ [EPrint Stdout (MsgUploading lp url)]) in Erun.
  assert (F3 : forallb not_put l3 = true)
    by (unfold l3; rewrite forallb_app, F2; reflexivity).
  unfold bind at 1, upload_file_to_yadisk in Erun.
  unfold bind at 1, log at 1 in Erun. rewrite add_trace_app in Erun.
  unfold bind at 1, get_file at 1 in Erun.
  cbn [fs add_trace] in Erun.
  set (pre := [EPrint Stdout (MsgQuerying lp)] ++ l1 ++ l3 ++ [EOpenR lp]).
  assert (Fpre : forallb not_put pre = true).
  { unfold pre. rewrite !forallb_app, F1', F3. reflexivity. }
  assert (Epre : forall t, trace (add_trace s1 (l3 ++ [EOpenR lp])) ++ t
                           = trace s0 ++ pre ++ t).
  { intros t. unfold pre. cbn [trace add_trace]. rewrite E1.
    rewrite <- !app_assoc. reflexivity. }
  destruct (fs s1 lp) as [data|].
  2:{ left. exists pre. split; [|assumption]. subst run.
      cbn [snd raise]. rewrite <- (app_nil_r (trace _)), Epre, app_nil_r.
      reflexivity. }
  unfold bind at 1 in Erun.
  destruct (w_open_r w lp) as [what|]; cbn [check] in Erun.
  { left. exists pre. split; [|assumption]. subst run.
    cbn [snd raise]. rewrite <- (app_nil_r (trace _)), Epre, app_nil_r.
    reflexivity. }
  right. exists pre, data. split; [assumption|].
  unfold ret at 1, bind at 1, log at 1 in Erun.
  destruct (w_put w url data) as [status text | what].
  - eexists. split; [|exact Erun].
    exact (Epre _).
  - subst run. cbn [fst snd raise]. split; [reflexivity|].
    exact (Epre _).
Qed.

Lemma no_put_in (l : list event) (url : str) (auth : credentials)
    (data : str) :
  forallb not_put l = true -> ~ In (EPut url auth data) l.
Proof.
  intros F H. rewrite forallb_forall in F. specialize (F _ H). discriminate.
Qed.

Lemma only_put_in (l l' : list event) (url url0 : str)
    (auth auth0 : credentials) (data data0 : str) :
  forallb not_put l = true -> forallb not_put l' = true ->
  In (EPut url auth data) (l ++ [EPut url0 auth0 data0] ++ l') ->
  url = url0 /\ data = data0.
Proof.
  intros F F' H. apply in_app_or in H as [H | H].
  { destruct (no_put_in _ _ _ _ F H). }
  apply in_app_or in H as [[H | []] | H].
  - inversion H; auto.
  - destruct (no_put_in _ _ _ _ F' H).
Qed.

Lemma report_upload_run (name : str) (status : Z) (text : str) (s : sys) :
  report_upload name (status, text) s =
  if ((200 <=? status) && (status <? 300))%Z
  then (Ok tt, add_trace s [EPrint Stdout (MsgUploaded name)])
  else (Raise (SystemExit 2),
        add_trace s [EPrint Stderr (MsgUploadError status text)]).
Proof.
  unfold report_upload. destruct (_ && _)%bool; reflexivity.
Qed.

(** [main] once the token and the connection parameters are there. *)
Lemma main_run (token : option str) (a : args) (s : sys) :
  opt_truthy token = true -> opt_truthy (pg_user a) = true ->
  opt_truthy (pg_database a) = true ->
  main w token a s =
  (local_path <- choose_local_path w a ;;
   try_finally
     (pipeline w a (make_conn_params a) (or_else token [])
        (make_remote_filename w a) local_path)
     (cleanup w local_path)) s.
Proof.
  intros Ht Hu Hd. unfold main. cbn [make_conn_params user dbname].
  rewrite Ht, Hu, Hd. reflexivity.
Qed.

(** [main] when something is missing. *)
Lemma main_refuses (token : option str) (a : args) (s : sys) :
  opt_truthy token = false \/ opt_truthy (pg_user a) = false \/
  opt_truthy (pg_database a) = false ->
  main w token a s =
  (Raise (SystemExit 1),
   add_trace s [EPrint Stderr (if opt_truthy token then MsgNoPgParams
                               else MsgNoToken)]).
Proof.
  intros H. unfold main. cbn [make_conn_params user dbname].
  destruct (opt_truthy token); [|reflexivity].
  destruct H as [H | [H | H]]; [discriminate | |]; rewrite H;
    rewrite ?orb_true_r; reflexivity.
Qed.

Lemma choose_local_path_cases (a : args) (s : sys) :
  (exists path s',
     choose_local_path w a s = (Ok path, s') /\
     local_path_of w a = Some path /\
     (trace s' = trace s \/ trace s' = trace s ++ [EMkstemp])) \/
  (exists what,
     choose_local_path w a s =
       (Raise (PyException OsError what), add_trace s [EMkstemp]) /\
     local_path_of w a = None).
Proof.
  unfold choose_local_path, local_path_of, os_mkstemp.
  destruct (opt_truthy (local_temp a)).
  - left. eexists _, s. repeat split. left; reflexivity.
  - unfold bind, log. destruct (w_mkstemp w) as [path | what].
    + left. eexists path, _. repeat split. right; reflexivity.
    + right. exists what. split; reflexivity.
Qed.

(** A run whose trace shows the upload request got past every earlier
    stage: its outcome is the one [report_upload] draws from the answer. *)
Lemma main_after_put (token : option str) (a : args)
    (files : str -> option str) (url : str) (auth : credentials)
    (data : str) (status : Z) (text : str) :
  let run := main w token a (boot files) in
  In (EPut url auth data) (trace (snd run)) ->
  w_put w url data = Response status text ->
  exists s' lc,
    fst run = fst (report_upload (make_remote_filename w a) (status, text) s')
    /\ trace (snd run) =
       trace (snd (report_upload (make_remote_filename w a) (status, text) s'))
       ++ lc.
Proof.
  intros run H Hput. subst run.
  destruct (opt_truthy token) eqn:Ht;
    [destruct (opt_truthy (pg_user a)) eqn:Hu;
     [destruct (opt_truthy (pg_database a)) eqn:Hd|]|];
    try (rewrite main_refuses in H by auto; simpl in H;
         destruct H as [H | []]; discriminate).
  rewrite main_run in * by assumption. unfold bind in *.
  destruct (choose_local_path_cases a (boot files))
    as [(path & s' & E & _ & Ht') | (what & E & _)]; rewrite E in *.
  2:{ simpl in H. destruct H as [H | []]. discriminate. }
  assert (F0 : forallb not_put (trace s') = true)
    by (destruct Ht' as [-> | ->]; reflexivity).
  unfold try_finally in *.
  pose proof (pipeline_cases a (make_conn_params a) (or_else token [])
                (make_remote_filename w a) path s') as C.
  cbv zeta in C.
  destruct (pipeline w a _ _ _ path s') as [r s1].
  pose proof (cleanup_ok path s1) as Hc.
  destruct (cleanup_emits_no_put w path s1) as (lc & Ec & Fc).
  destruct (cleanup w path s1) as [rc s2]. cbn [fst snd] in *. subst rc.
  cbn [fst snd] in *. rewrite Ec in *.
  destruct C as [(l & El & Fl) | (l & data0 & Fl & C)].
  { exfalso. rewrite El in H.
    apply (no_put_in (trace s' ++ l ++ lc) url auth data).
    - rewrite !forallb_app, F0, Fl, Fc. reflexivity.
    - rewrite app_assoc. exact H. }
  destruct (w_put w _ data0) as [status0 text0 | what] eqn:Eput.
  - destruct C as (s'' & Es'' & Erun).
    assert (Et : exists m, trace s1 = trace s'' ++ [m] /\ not_put m = true).
    { rewrite report_upload_run in Erun.
      destruct (_ && _)%bool; inversion Erun; eexists; split; reflexivity. }
    destruct Et as (m & Et & Fm). rewrite Et, Es'' in H.
    assert (Fa : forallb not_put (trace s' ++ l) = true)
      by (rewrite forallb_app, F0, Fl; reflexivity).
    assert (Fb : forallb not_put ([m] ++ lc) = true)
      by (rewrite forallb_app, Fc; cbn [forallb]; rewrite Fm; reflexivity).
    rewrite <- !app_assoc in H. rewrite app_assoc in H.
    destruct (only_put_in _ _ _ _ _ _ _ _ Fa Fb H) as [-> ->].
    rewrite Eput in Hput. inversion Hput; subst.
    exists s'', lc. rewrite <- Erun. split; reflexivity.
  - exfalso. destruct C as [_ Et]. rewrite Et in H.
    assert (Fa : forallb not_put (trace s' ++ l) = true)
      by (rewrite forallb_app, F0, Fl; reflexivity).
    rewrite <- !app_assoc in H. rewrite app_assoc in H.
    destruct (only_put_in _ _ _ _ _ _ _ _ Fa Fc H) as [-> ->].
    congruence.
Qed.

Lemma mkcol_trace_forall (P : event -> bool) (auth : credentials) (i : nat)
    (urls : list str) :
  (forall u, P (EMkcol u auth) = true) ->
  (forall m, P (EPrint Stdout m) = true) ->
  forallb P (mkcol_trace w auth i urls) = true.
Proof.
  intros Hm Hp.
  revert i; induction urls as [|u urls IH]; intros i; simpl; auto.
  rewrite Hm, forallb_app, IH, andb_true_r.
  destruct (w_mkcol w i u) as [status text | what]; simpl; rewrite ?Hp; auto.
  destruct (_ || _)%bool; simpl; rewrite ?Hp; reflexivity.
Qed.

Lemma make_remote_dirs_emits (P : event -> bool) (auth : credentials)
    (d : str) :
  (forall u, P (EMkcol u auth) = true) ->
  (forall m, P (EPrint Stdout m) = true) ->
  emits P (make_remote_dirs w auth d).
Proof.
  intros Hm Hp s. rewrite make_remote_dirs_run. eexists. split; [reflexivity|].
  apply mkcol_trace_forall; assumption.
Qed.

(** Nothing is removed before the [finally] clause. *)
Lemma pipeline_emits_no_remove (a : args) (p : conn_params)
    (yad_token name lp : str) :
  emits not_remove (pipeline w a p yad_token name lp).
Proof.
  unfold pipeline, upload_file_to_yadisk, report_upload, print, sys_exit.
  assert (Hq : emits not_remove (run_query_and_write_csv w p (query a) lp)).
  { apply emits_weaken with (P := is_export_event);
      [intros []; intros; try discriminate; reflexivity
      | apply run_query_emits]. }
  assert (Hd : emits not_remove
                 (make_remote_dirs w (or_else (yandex_login a) [], yad_token)
                    (remote_dir a)))
    by (apply make_remote_dirs_emits; reflexivity).
  emits_auto.
Qed.

End Main.

(* ================================================================== *)
(** * Properties of [main] *)

(** C3.  When the token is missing from the environment, or the database
    user or the database name is missing, [main] prints one message on the
    error stream and exits with status 1: no file is made, no database is
    contacted, no request is sent. *)
Theorem missing_configuration_exits_early (w : world) (token : option str)
    (a : args) (files : str -> option str) :
  opt_truthy token = false \/ opt_truthy (pg_user a) = false \/
  opt_truthy (pg_database a) = false ->
  let run := main w token a (boot files) in
  fst run = Raise (SystemExit 1) /\
  exit_status (fst run) = 1%Z /\
  trace (snd run) =
    [EPrint Stderr (if opt_truthy token then MsgNoPgParams else MsgNoToken)] /\
  conn_open (snd run) = false /\
  (forall path, fs (snd run) path = files path).
Proof.
  intros H. cbv zeta. rewrite main_refuses by assumption.
  repeat split.
Qed.

Lemma missing_configuration_exits_early_no_token :
  let run := main Sample.calm None Sample.cli (boot Sample.no_files) in
  fst run = Raise (SystemExit 1) /\
  exit_status (fst run) = 1%Z /\
  trace (snd run) = [EPrint Stderr MsgNoToken] /\
  conn_open (snd run) = false /\
  (forall path, fs (snd run) path = Sample.no_files path).
Proof.
  apply (@missing_configuration_exits_early Sample.calm None Sample.cli
           Sample.no_files).
  left; reflexivity.
Defined.

(** C2.  A run that has sent the upload request and got a response
    returns normally (exit status 0), after printing the confirmation, if
    and only if the status of the response is in the 2xx range.  For any
    other status it prints the status and the body on the error stream and
    exits with status 2, which is not the status of a run that lacks its
    token. *)
Theorem upload_status_decides_exit (w : world) (token : option str)
    (a : args) (files : str -> option str) (url : str) (auth : credentials)
    (data : str) (status : Z) (text : str) :
  let run := main w token a (boot files) in
  In (EPut url auth data) (trace (snd run)) ->
  w_put w url data = Response status text ->
  (exit_status (fst run) = 0 <-> 200 <= status < 300)%Z /\
  ((200 <= status < 300)%Z ->
   fst run = Ok tt /\
   In (EPrint Stdout (MsgUploaded (make_remote_filename w a)))
      (trace (snd run))) /\
  (~ (200 <= status < 300)%Z ->
   fst run = Raise (SystemExit 2) /\
   In (EPrint Stderr (MsgUploadError status text)) (trace (snd run)) /\
   exit_status (fst run) <> exit_status (fst (main w None a (boot files)))).
Proof.
  intros run Hin Hput.
  destruct (main_after_put w token a files url auth data Hin Hput)
    as (s' & lc & Er & Et).
  fold run in Er, Et. rewrite Er, Et, report_upload_run.
  assert (Hnone : exit_status (fst (main w None a (boot files))) = 1%Z)
    by (rewrite main_refuses by (left; reflexivity); reflexivity).
  rewrite Hnone.
  destruct ((200 <=? status) && (status <? 300))%Z eqn:Eb.
  - apply andb_true_iff in Eb as [E1 E2].
    apply Z.leb_le in E1. apply Z.ltb_lt in E2. cbn [fst snd exit_status].
    repeat split; try lia.
    apply in_or_app; left. cbn [trace add_trace].
    apply in_or_app; right. left; reflexivity.
  - assert (Hn : ~ (200 <= status < 300)%Z).
    { apply andb_false_iff in Eb as [E | E];
        [apply Z.leb_gt in E | apply Z.ltb_ge in E]; lia. }
    cbn [fst snd exit_status].
    repeat split; try lia; try discriminate; try contradiction.
    apply in_or_app; left. cbn [trace add_trace].
    apply in_or_app; right. left; reflexivity.
Qed.

Lemma upload_status_decides_exit_201 :
  (exit_status
     (fst (main Sample.calm Sample.token Sample.cli (boot Sample.no_files)))
   = 0 <-> 200 <= 201 < 300)%Z.
Proof.
  assert (Hin : In (EPut Sample.put_url Sample.auth Sample.exported)
                   (trace (snd (main Sample.calm Sample.token Sample.cli
                                  (boot Sample.no_files))))).
  { vm_compute. repeat (first [left; reflexivity | right]). }
  assert (Hput : w_put Sample.calm Sample.put_url Sample.exported
                 = Response 201 []) by reflexivity.
  exact (proj1 (upload_status_decides_exit Sample.calm Sample.token
                  Sample.cli Sample.no_files _ _ _ Hin Hput)).
Defined.

(** The same run against a server that answers the upload with 403. *)
Example upload_403_exits_2 :
  let w := Sample.with_put (fun _ _ => Response 403 (lit "Forbidden"))
             Sample.calm in
  let run := main w Sample.token Sample.cli (boot Sample.no_files) in
  fst run = Raise (SystemExit 2) /\
  last (trace (snd run)) EMkstemp = ERemove (lit "/tmp/pg_query_x.csv") /\
  In (EPrint Stderr (MsgUploadError 403 (lit "Forbidden"))) (trace (snd run)).
Proof.
  vm_compute. repeat split. repeat (first [left; reflexivity | right]).
Qed.

(** C6, as the code has it.  Once the token and the connection parameters
    are there, the local file is absent from the file system when [main]
    is over, however it ends (normally, with the exit of a failed upload,
    or with an exception), provided its removal succeeds; and this holds
    whether the path was generated or given with --local-temp. *)
Theorem local_file_removed (w : world) (token : option str) (a : args)
    (files : str -> option str) (path : str) :
  opt_truthy token = true -> opt_truthy (pg_user a) = true ->
  opt_truthy (pg_database a) = true ->
  local_path_of w a = Some path ->
  w_remove w path = None ->
  fs (snd (main w token a (boot files))) path = None.
Proof.
  intros Ht Hu Hd Hp Hr. rewrite main_run by assumption. unfold bind.
  destruct (choose_local_path_cases w a (boot files))
    as [(path' & s' & E & Hp' & _) | (what & _ & Hn)]; [|congruence].
  rewrite E. assert (path' = path) by congruence. subst path'.
  unfold try_finally. destruct (pipeline w a _ _ _ path s') as [r s1].
  rewrite cleanup_run, Hr.
  destruct (fs s1 path) eqn:Ef; cbn [snd]; [|assumption].
  cbn [fs set_file add_trace snd]. unfold update.
  rewrite str_eqb_refl. reflexivity.
Qed.

Lemma local_file_removed_generated :
  fs (snd (main Sample.calm Sample.token Sample.cli (boot Sample.no_files)))
     (lit "/tmp/pg_query_x.csv") = None.
Proof.
  apply (@local_file_removed Sample.calm Sample.token Sample.cli
           Sample.no_files (lit "/tmp/pg_query_x.csv")); reflexivity.
Defined.

(** The two other ways out: a refused upload and an exception. *)
Example local_file_gone_after_failures :
  let w := Sample.with_put (fun _ _ => Response 403 (lit "Forbidden"))
             Sample.calm in
  let refused := main w Sample.token Sample.cli (boot Sample.no_files) in
  let crashed := main Sample.offline Sample.token Sample.cli
                   (boot Sample.no_files) in
  fst refused = Raise (SystemExit 2) /\
  fs (snd refused) (lit "/tmp/pg_query_x.csv") = None /\
  fst crashed =
    Raise (PyException ConnectionError (lit "connection refused")) /\
  fs (snd crashed) (lit "/tmp/pg_query_x.csv") = None /\
  In (ERemove (lit "/tmp/pg_query_x.csv")) (trace (snd crashed)).
Proof.
  vm_compute. repeat split. repeat (first [left; reflexivity | right]).
Qed.

(** C6 as the specification words it fails: a file whose path the caller
    gave with --local-temp is written, uploaded and then removed like a
    generated one. *)
Lemma supplied_local_path_is_deleted :
  let a := Sample.with_local_temp (Some (lit "/data/out.csv")) Sample.cli in
  let run := main Sample.calm Sample.token a (boot Sample.no_files) in
  local_temp a = Some (lit "/data/out.csv") /\
  fst run = Ok tt /\
  In (EPut Sample.put_url Sample.auth Sample.exported) (trace (snd run)) /\
  In (ERemove (lit "/data/out.csv")) (trace (snd run)) /\
  fs (snd run) (lit "/data/out.csv") = None.
Proof.
  vm_compute. repeat split; repeat (first [left; reflexivity | right]).
Qed.

(** C9.  Whether the removal of the local file fails or succeeds, [main]
    ends the same way, with the same exit status; and when the removal was
    attempted and failed, the run differs from the one where it succeeds
    by one warning, printed last, on the error stream. *)
Theorem cleanup_failure_not_escalated (w : world) (token : option str)
    (a : args) (files : str -> option str) (what : str) :
  let bad := main (with_remove (fun _ => Some what) w) token a (boot files) in
  let good := main (with_remove (fun _ => None) w) token a (boot files) in
  fst bad = fst good /\
  exit_status (fst bad) = exit_status (fst good) /\
  trace (snd bad) =
    trace (snd good) ++
    (if existsb is_remove (trace (snd good))
     then [EPrint Stderr (MsgCleanupFailed what)] else []).
Proof.
  intros bad good.
  assert (H : fst bad = fst good /\
              trace (snd bad) =
                trace (snd good) ++
                (if existsb is_remove (trace (snd good))
                 then [EPrint Stderr (MsgCleanupFailed what)] else [])).
  2:{ destruct H as [H1 H2]. rewrite H1. auto. }
  subst bad good.
  destruct (opt_truthy token) eqn:Ht;
    [destruct (opt_truthy (pg_user a)) eqn:Hu;
     [destruct (opt_truthy (pg_database a)) eqn:Hd|]|];
    try (rewrite !main_refuses by auto; rewrite Ht; split; reflexivity).
  rewrite !main_run by assumption.
  change (choose_local_path (with_remove _ w) a)
    with (choose_local_path w a).
  unfold bind.
  destruct (choose_local_path_cases w a (boot files))
    as [(path & s' & E & _ & Ht') | (e & E & _)]; rewrite E.
  2:{ split; reflexivity. }
  unfold try_finally.
  change (pipeline (with_remove (fun _ => Some what) w))
    with (pipeline w).
  change (pipeline (with_remove (fun _ => None) w)) with (pipeline w).
  destruct (pipeline_emits_no_remove w a (make_conn_params a)
              (or_else token []) (make_remote_filename w a) path s')
    as (l & El & Fl).
  change (make_remote_filename (with_remove (fun _ => Some what) w) a)
    with (make_remote_filename w a).
  change (make_remote_filename (with_remove (fun _ => None) w) a)
    with (make_remote_filename w a).
  destruct (pipeline w a _ _ _ path s') as [r s1]. cbn [snd] in El.
  rewrite !cleanup_run. cbn [w_remove with_remove].
  assert (F1 : existsb is_remove (trace s1) = false).
  { rewrite El, existsb_app.
    assert (existsb is_remove l = false).
    { clear - Fl. induction l as [|x l IH]; simpl in *; auto.
      apply andb_true_iff in Fl as [Fx Fl]. rewrite (IH Fl), orb_false_r.
      unfold not_remove in Fx. destruct (is_remove x); auto. }
    destruct Ht' as [-> | ->]; simpl; assumption. }
  destruct (fs s1 path); cbn [fst snd trace add_trace set_file].
  - split; [reflexivity|]. rewrite existsb_app, F1. cbn [existsb is_remove].
    rewrite <- app_assoc. reflexivity.
  - split; [reflexivity|]. rewrite F1, app_nil_r. reflexivity.
Qed.

(* ================================================================== *)
(** * The query stage: handles *)

Section Release.

Variable w : world.

(** The state once the connection is made and the cursor created. *)
Lemma run_query_connected (p : conn_params) (q path : str) (s : sys) :
  w_connect w p = None -> w_cursor w = None ->
  run_query_and_write_csv w p q path s =
  try_finally (export_body w q path) (release w)
    {| fs := fs s; conn_open := true; cursor_open := true;
       trace := trace s ++ [EConnect p; ECursor] |}.
Proof.
  intros H Hk. unfold run_query_and_write_csv, pg_connect, conn_cursor.
  unfold bind at 1 2 3 4 5, log, check. rewrite H, Hk. cbn.
  rewrite <- app_assoc. reflexivity.
Qed.

(** The cursor could not be created: the stage raises at once, outside
    its [try], and the connection stays open. *)
Lemma run_query_no_cursor (p : conn_params) (q path what : str) (s : sys) :
  w_connect w p = None -> w_cursor w = Some what ->
  run_query_and_write_csv w p q path s =
  (Raise (PyException CursorError what),
   {| fs := fs s; conn_open := true; cursor_open := cursor_open s;
      trace := trace s ++ [EConnect p; ECursor] |}).
Proof.
  intros H Hk. unfold run_query_and_write_csv, pg_connect, conn_cursor.
  unfold bind at 1 2 3 4 5, log, check. rewrite H, Hk. cbn.
  unfold add_trace; cbn; rewrite <- ?app_assoc; reflexivity.
Qed.

Lemma run_query_refused (p : conn_params) (q path what : str) (s : sys) :
  w_connect w p = Some what ->
  run_query_and_write_csv w p q path s =
  (Raise (PyException ConnectionError what), add_trace s [EConnect p]).
Proof.
  intros H. unfold run_query_and_write_csv, pg_connect.
  unfold bind at 1 2 3, log, check. rewrite H. reflexivity.
Qed.

(** The [finally] clause of the query stage: both handles are closed,
    whether or not closing the cursor raises. *)
Lemma release_run (s : sys) :
  release w s =
  (Ok tt,
   {| fs := fs s; conn_open := false; cursor_open := false;
      trace := trace s ++ [ECursorClose; EConnClose] |}).
Proof.
  unfold release, bind, try_except, cur_close, conn_close, bind, log, check.
  destruct (w_cursor_close w); cbn; rewrite <- app_assoc; reflexivity.
Qed.

Lemma write_rows_raises (path : str) (names : list str) (i : nat)
    (rows : list (outcome (list value))) (s : sys) :
  match fst (write_rows w path names i rows s) with
  | Ok _ => True
  | Raise e => is_export_error e = true
  end.
Proof.
  revert i s; induction rows as [|[vals | what] rows IH]; intros i s;
    cbn [write_rows]; try exact I; [|reflexivity].
  unfold bind, DictWriter_writerow.
  destruct (wrong_fields names _); [|reflexivity].
  unfold file_write, bind, log, check.
  destruct (w_write w i); [reflexivity|]. cbn. apply IH.
Qed.

Lemma export_body_raises (q path : str) (s : sys) :
  match fst (export_body w q path s) with
  | Ok _ => True
  | Raise e => is_export_error e = true
  end.
Proof.
  unfold export_body.
  unfold bind at 1. unfold cur_execute, bind at 1, log.
  destruct (w_execute w q) as [names | what]; [|reflexivity].
  unfold ret at 1. unfold bind at 1, open_w, bind at 1, log.
  unfold bind at 1, check.
  destruct (w_open_w w path); [reflexivity|].
  unfold ret at 1, set_file at 1. unfold bind at 1.
  unfold DictWriter_writeheader, DictWriter_writerow.
  destruct (wrong_fields names _); [|reflexivity].
  unfold file_write, bind at 1, log, bind at 1, check.
  destruct (w_write w 0); [reflexivity|].
  unfold ret at 1, bind at 1, get_file, set_file.
  apply write_rows_raises.
Qed.

End Release.

(** X16.  The [try]/[finally] of the query stage.  Started with no handle
    open, a run that returns, or that raises the error of a refused
    connection, of the query or of writing the file, ends with no handle
    open.  When the connection was made, the last two actions of such a
    run are closing the cursor and closing the connection; when it was
    refused, there is nothing to release and the stage has done nothing
    else. *)
Theorem handles_released (w : world) (p : conn_params) (q path : str)
    (s : sys) :
  conn_open s = false -> cursor_open s = false ->
  let run := run_query_and_write_csv w p q path s in
  (fst run = Ok tt \/ exists e, fst run = Raise e /\ is_export_error e = true)
  ->
  conn_open (snd run) = false /\
  cursor_open (snd run) = false /\
  (w_connect w p = None ->
   exists l, trace (snd run) =
             trace s ++ [EConnect p; ECursor] ++ l
                     ++ [ECursorClose; EConnClose]) /\
  (forall what, w_connect w p = Some what ->
     fst run = Raise (PyException ConnectionError what) /\
     trace (snd run) = trace s ++ [EConnect p]).
Proof.
  intros Hc Hk run. subst run.
  destruct (w_connect w p) as [what|] eqn:E.
  { rewrite (run_query_refused _ _ _ _ _ E). cbn. intros _.
    split; [assumption|]. split; [assumption|].
    split; [discriminate|]. intros ? [= <-]. split; reflexivity. }
  destruct (w_cursor w) as [what|] eqn:Ek.
  { rewrite (run_query_no_cursor _ _ _ _ _ E Ek). cbn [fst].
    intros [H | (e & H & He)]; [discriminate|].
    injection H as <-. discriminate. }
  rewrite (run_query_connected _ _ _ _ _ E Ek). unfold try_finally.
  set (s0 := {| fs := fs s; conn_open := true; cursor_open := true;
                trace := trace s ++ [EConnect p; ECursor] |}).
  destruct (export_body_emits w q path s0) as (l & El & _).
  destruct (export_body w q path s0) as [r s1].
  rewrite release_run. cbn [fst snd conn_open cursor_open trace] in *.
  intros _. split; [reflexivity|]. split; [reflexivity|]. split.
  - intros _. exists l. rewrite El. subst s0. cbn [trace].
    rewrite <- !app_assoc. reflexivity.
  - discriminate.
Qed.

(** What the stage raises when the cursor exists is a query or a
    serialization error. *)
Lemma run_query_errors (w : world) (p : conn_params) (q path : str)
    (s : sys) :
  w_cursor w = None ->
  let run := run_query_and_write_csv w p q path s in
  fst run = Ok tt \/ exists e, fst run = Raise e /\ is_export_error e = true.
Proof.
  intros Ek run. subst run.
  destruct (w_connect w p) as [what|] eqn:E.
  { rewrite (run_query_refused _ _ _ _ _ E). right.
    eexists; split; reflexivity. }
  rewrite (run_query_connected _ _ _ _ _ E Ek). unfold try_finally.
  match goal with
  | |- context [export_body w q path ?s0] =>
      pose proof (export_body_raises w q path s0) as Hr;
      destruct (export_body w q path s0) as [r s1]
  end.
  rewrite release_run. cbn [fst] in *.
  destruct r as [[] | e]; [left; reflexivity | right; eauto].
Qed.

Lemma handles_released_calm :
  let run := run_query_and_write_csv Sample.calm Sample.params
               (lit "SELECT id, name FROM users") (lit "out.csv")
               (boot Sample.no_files) in
  conn_open (snd run) = false /\ cursor_open (snd run) = false.
Proof.
  intros run.
  destruct (@handles_released Sample.calm Sample.params
              (lit "SELECT id, name FROM users") (lit "out.csv")
              (boot Sample.no_files) eq_refl eq_refl (or_introl eq_refl))
    as (H1 & H2 & _).
  split; assumption.
Defined.

(** C8 fails on the code.  The cursor is created at line 37, between
    [psycopg2.connect] and the [try]: when creating it raises, the error
    leaves the stage before the [finally] clause is in force, nothing
    closes the connection, and the stage ends with the connection open. *)
Theorem cursor_failure_leaks_connection :
  let run := run_query_and_write_csv Sample.no_cursor Sample.params
               (lit "SELECT id, name FROM users") (lit "out.csv")
               (boot Sample.no_files) in
  fst run = Raise (PyException CursorError (lit "cursor refused")) /\
  conn_open (snd run) = true /\
  trace (snd run) = [EConnect Sample.params; ECursor] /\
  fs (snd run) (lit "out.csv") = None.
Proof. repeat split. Qed.

(** Between the two ends the handles are open: a stage without the
    [finally] clause would leave them so. *)
Example handles_open_before_release :
  let s := snd ((pg_connect Sample.calm Sample.params ;;
                 conn_cursor Sample.calm)
                  (boot Sample.no_files)) in
  conn_open s = true /\ cursor_open s = true.
Proof. split; reflexivity. Qed.

(** A query that fails after the first row: the error is a query error
    and both handles are closed. *)
Example query_error_still_releases :
  let w := Sample.with_fetch
             [Fine [PyOther (lit "1"); PyNone]; Fails (lit "connection lost")]
             Sample.calm in
  let run := run_query_and_write_csv w Sample.params (lit "q")
               (lit "out.csv") (boot Sample.no_files) in
  fst run = Raise (PyException QueryError (lit "connection lost")) /\
  conn_open (snd run) = false /\ cursor_open (snd run) = false /\
  fs (snd run) (lit "out.csv") =
    Some (csv_text [[lit "id"; lit "name"]; [lit "1"; []]]).
Proof. repeat split. Qed.

(* ================================================================== *)
(** * Reading back what the writer wrote *)

Section ReadBack.

#[local] Arguments Ascii.eqb : simpl never.

Lemma special_false (c : ascii) :
  special c = false ->
  Ascii.eqb c comma = false /\ Ascii.eqb c dquote = false /\
  Ascii.eqb c CR = false /\ Ascii.eqb c LF = false.
Proof. unfold special. rewrite !orb_false_iff. tauto. Qed.

Lemma splitlines_nonempty (text : str) : text <> [] -> splitlines text <> [].
Proof.
  destruct text as [|c rest]; [congruence|]. intros _. cbn [splitlines].
  destruct (Ascii.eqb c LF); [discriminate|].
  destruct (Ascii.eqb c CR).
  - destruct rest as [|c' rest']; [discriminate|].
    destruct (Ascii.eqb c' LF); discriminate.
  - destruct (splitlines rest); discriminate.
Qed.

(** A character that ends no line is one step of the machine. *)
Lemma feed_plain (r : reader) (c : ascii) (rest : str) :
  is_nl c = false -> rest <> [] ->
  feed r (c :: rest) =
  match process_char r (Some c) with
  | Some r' => feed r' rest
  | None => None
  end.
Proof.
  unfold is_nl. rewrite orb_false_iff. intros [Hlf Hcr] Hrest.
  unfold feed. cbn [splitlines]. rewrite Hlf, Hcr.
  destruct (splitlines rest) as [|l ls] eqn:E.
  { destruct (splitlines_nonempty Hrest E). }
  cbn [read_records read_line].
  destruct (process_char r (Some c)); reflexivity.
Qed.

(** The end of a record. *)
Lemma feed_crlf (r r1 r2 r3 : reader) (rest : str) :
  process_char r (Some CR) = Some r1 ->
  process_char r1 (Some LF) = Some r2 ->
  process_char r2 None = Some r3 ->
  feed r (CRLF ++ rest) =
  match rstate r3 with
  | START_RECORD => option_map (cons (fields r3)) (feed fresh rest)
  | _ => feed r3 rest
  end.
Proof.
  intros H1 H2 H3. unfold feed, CRLF. cbn [app splitlines].
  change (Ascii.eqb CR LF) with false. change (Ascii.eqb CR CR) with true.
  change (Ascii.eqb LF LF) with true.
  cbn [read_records read_line]. rewrite H1, H2, H3. reflexivity.
Qed.

(** The transitions of the machine that reading a written file takes. *)
Lemma pc_quoted_data (f : str) (fs : list str) (c : ascii) :
  Ascii.eqb c dquote = false ->
  process_char (mk IN_QUOTED_FIELD f fs) (Some c) =
  Some (mk IN_QUOTED_FIELD (f ++ [c]) fs).
Proof. intros H. unfold process_char. cbn [rstate mk]. rewrite H. reflexivity. Qed.

Lemma pc_quoted_eol (f : str) (fs : list str) :
  process_char (mk IN_QUOTED_FIELD f fs) None = Some (mk IN_QUOTED_FIELD f fs).
Proof. reflexivity. Qed.

Lemma pc_quoted_quote (f : str) (fs : list str) :
  process_char (mk IN_QUOTED_FIELD f fs) (Some dquote) =
  Some (mk QUOTE_IN_QUOTED_FIELD f fs).
Proof. reflexivity. Qed.

Lemma pc_qq_quote (f : str) (fs : list str) :
  process_char (mk QUOTE_IN_QUOTED_FIELD f fs) (Some dquote) =
  Some (mk IN_QUOTED_FIELD (f ++ [dquote]) fs).
Proof. reflexivity. Qed.

Lemma pc_qq_comma (f : str) (fs : list str) :
  process_char (mk QUOTE_IN_QUOTED_FIELD f fs) (Some comma) =
  Some (mk START_FIELD [] (fs ++ [f])).
Proof. reflexivity. Qed.

Lemma pc_qq_cr (f : str) (fs : list str) :
  process_char (mk QUOTE_IN_QUOTED_FIELD f fs) (Some CR) =
  Some (mk EAT_CRNL [] (fs ++ [f])).
Proof. reflexivity. Qed.

Lemma pc_eat_lf (f : str) (fs : list str) :
  process_char (mk EAT_CRNL f fs) (Some LF) = Some (mk EAT_CRNL f fs).
Proof. reflexivity. Qed.

Lemma pc_eat_eol (f : str) (fs : list str) :
  process_char (mk EAT_CRNL f fs) None = Some (mk START_RECORD f fs).
Proof. reflexivity. Qed.

Lemma pc_field_data (f : str) (fs : list str) (c : ascii) :
  special c = false ->
  process_char (mk IN_FIELD f fs) (Some c) = Some (mk IN_FIELD (f ++ [c]) fs).
Proof.
  intros H. destruct (special_false _ H) as (Hc & _ & Hr & Hl).
  unfold process_char, is_nl. cbn [rstate mk]. rewrite Hc, Hr, Hl. reflexivity.
Qed.

Lemma pc_field_comma (f : str) (fs : list str) :
  process_char (mk IN_FIELD f fs) (Some comma) =
  Some (mk START_FIELD [] (fs ++ [f])).
Proof. reflexivity. Qed.

Lemma pc_field_cr (f : str) (fs : list str) :
  process_char (mk IN_FIELD f fs) (Some CR) = Some (mk EAT_CRNL [] (fs ++ [f])).
Proof. reflexivity. Qed.

Lemma pc_start_data (f : str) (fs : list str) (c : ascii) :
  special c = false ->
  process_char (mk START_FIELD f fs) (Some c) = Some (mk IN_FIELD (f ++ [c]) fs).
Proof.
  intros H. destruct (special_false _ H) as (Hc & Hq & Hr & Hl).
  unfold process_char, start_field, is_nl. cbn [rstate mk].
  rewrite Hc, Hq, Hr, Hl. reflexivity.
Qed.

Lemma pc_start_quote (f : str) (fs : list str) :
  process_char (mk START_FIELD f fs) (Some dquote) =
  Some (mk IN_QUOTED_FIELD f fs).
Proof. reflexivity. Qed.

Lemma pc_start_comma (f : str) (fs : list str) :
  process_char (mk START_FIELD f fs) (Some comma) =
  Some (mk START_FIELD [] (fs ++ [f])).
Proof. reflexivity. Qed.

Lemma pc_start_cr (f : str) (fs : list str) :
  process_char (mk START_FIELD f fs) (Some CR) =
  Some (mk EAT_CRNL [] (fs ++ [f])).
Proof. reflexivity. Qed.

(** At the start of a record a character that ends no line is handled
    as at the start of a field. *)
Lemma pc_record_as_field (f : str) (fs : list str) (c : ascii) :
  is_nl c = false ->
  process_char (mk START_RECORD f fs) (Some c) =
  process_char (mk START_FIELD f fs) (Some c).
Proof.
  intros H. unfold process_char. cbn [rstate mk]. rewrite H.
  unfold start_field. rewrite H. reflexivity.
Qed.

Lemma pc_record_cr (f : str) (fs : list str) :
  process_char (mk START_RECORD f fs) (Some CR) = Some (mk EAT_CRNL f fs).
Proof. reflexivity. Qed.

(** Inside quotes every character but the quote is data, line ends
    included. *)
Lemma feed_quoted_char (f : str) (fs : list str) (c : ascii) (rest : str) :
  Ascii.eqb c dquote = false -> rest <> [] ->
  feed (mk IN_QUOTED_FIELD f fs) (c :: rest) =
  feed (mk IN_QUOTED_FIELD (f ++ [c]) fs) rest.
Proof.
  intros Hq Hrest.
  destruct (Ascii.eqb c LF) eqn:Hlf.
  { unfold feed. cbn [splitlines]. rewrite Hlf.
    cbn [read_records read_line].
    rewrite (pc_quoted_data _ _ _ Hq), pc_quoted_eol. reflexivity. }
  destruct (Ascii.eqb c CR) eqn:Hcr.
  2:{ rewrite feed_plain by (try assumption; unfold is_nl; rewrite Hlf, Hcr;
                             reflexivity).
      rewrite (pc_quoted_data _ _ _ Hq). reflexivity. }
  destruct rest as [|c' rest']; [congruence|].
  unfold feed. cbn [splitlines]. rewrite Hlf, Hcr.
  destruct (Ascii.eqb c' LF) eqn:Hlf'.
  - cbn [read_records read_line].
    apply Ascii.eqb_eq in Hlf'. subst c'.
    rewrite (pc_quoted_data _ _ _ Hq). reflexivity.
  - cbn [read_records read_line].
    rewrite (pc_quoted_data _ _ _ Hq), pc_quoted_eol. reflexivity.
Qed.

(** A quoted field, from the character after the opening quote to the
    closing quote. *)
Lemma feed_quoted (f acc : str) (fs : list str) (rest : str) :
  rest <> [] ->
  feed (mk IN_QUOTED_FIELD acc fs) (double_quotes f ++ dquote :: rest) =
  feed (mk QUOTE_IN_QUOTED_FIELD (acc ++ f) fs) rest.
Proof.
  intros Hrest. revert acc. induction f as [|c f IH]; intros acc.
  - cbn [double_quotes app]. rewrite feed_plain by (auto; reflexivity).
    rewrite pc_quoted_quote, app_nil_r. reflexivity.
  - cbn [double_quotes]. destruct (Ascii.eqb c dquote) eqn:Hq.
    + apply Ascii.eqb_eq in Hq. subst c. cbn [app].
      rewrite feed_plain by (try reflexivity; discriminate).
      rewrite pc_quoted_quote.
      rewrite feed_plain
        by (try reflexivity; destruct (double_quotes f); discriminate).
      rewrite pc_qq_quote, IH, <- app_assoc. reflexivity.
    + cbn [app]. rewrite feed_quoted_char
        by (try assumption; destruct (double_quotes f); discriminate).
      rewrite IH, <- app_assoc. reflexivity.
Qed.

(** A field written without quotes. *)
Lemma feed_unquoted (f acc : str) (fs : list str) (rest : str) :
  needs_quote f = false -> rest <> [] ->
  feed (mk IN_FIELD acc fs) (f ++ rest) = feed (mk IN_FIELD (acc ++ f) fs) rest.
Proof.
  intros Hf Hrest. revert acc. induction f as [|c f IH]; intros acc.
  - rewrite app_nil_r. reflexivity.
  - cbn [needs_quote existsb] in Hf. apply orb_false_iff in Hf as [Hc Hf].
    destruct (special_false _ Hc) as (_ & _ & Hr & Hl).
    cbn [app]. rewrite feed_plain.
    + rewrite (pc_field_data _ _ _ Hc), (IH Hf), <- app_assoc. reflexivity.
    + unfold is_nl. rewrite Hr, Hl. reflexivity.
    + destruct f; [assumption | discriminate].
Qed.

(** A whole field followed by the delimiter. *)
Lemma feed_field_comma (f : str) (fs : list str) (rest : str) :
  rest <> [] ->
  feed (mk START_FIELD [] fs) (write_field f ++ comma :: rest) =
  feed (mk START_FIELD [] (fs ++ [f])) rest.
Proof.
  intros Hrest. unfold write_field. destruct (needs_quote f) eqn:Hf.
  - cbn [app]. rewrite <- app_assoc. cbn [app].
    rewrite feed_plain
      by (try reflexivity; destruct (double_quotes f); discriminate).
    rewrite pc_start_quote, feed_quoted by discriminate.
    rewrite feed_plain by (try reflexivity; assumption).
    rewrite pc_qq_comma. reflexivity.
  - destruct f as [|c f].
    + cbn [app]. rewrite feed_plain by (try reflexivity; assumption).
      rewrite pc_start_comma. reflexivity.
    + cbn [needs_quote existsb] in Hf. apply orb_false_iff in Hf as [Hc Hf].
      destruct (special_false _ Hc) as (_ & _ & Hr & Hl).
      cbn [app]. rewrite feed_plain.
      * rewrite (pc_start_data _ _ _ Hc), (feed_unquoted _ _ _ Hf)
          by discriminate.
        rewrite feed_plain by (try reflexivity; assumption).
        rewrite pc_field_comma. reflexivity.
      * unfold is_nl. rewrite Hr, Hl. reflexivity.
      * destruct f; discriminate.
Qed.

(** The last field of a record and the line terminator. *)
Lemma feed_field_crlf (f : str) (fs : list str) (rest : str) :
  feed (mk START_FIELD [] fs) (write_field f ++ CRLF ++ rest) =
  option_map (cons (fs ++ [f])) (feed fresh rest).
Proof.
  unfold write_field. destruct (needs_quote f) eqn:Hf.
  - cbn [app]. rewrite <- app_assoc. cbn [app].
    rewrite feed_plain
      by (try reflexivity; destruct (double_quotes f); discriminate).
    rewrite pc_start_quote.
    change (dquote :: CR :: LF :: rest) with (dquote :: CRLF ++ rest).
    rewrite feed_quoted by discriminate.
    rewrite (@feed_crlf _ _ _ _ rest (pc_qq_cr _ _) (pc_eat_lf _ _)
               (pc_eat_eol _ _)).
    reflexivity.
  - destruct f as [|c f].
    + cbn [app].
      change (CR :: LF :: rest) with (CRLF ++ rest).
      rewrite (@feed_crlf _ _ _ _ rest (pc_start_cr _ _) (pc_eat_lf _ _)
                 (pc_eat_eol _ _)).
      reflexivity.
    + cbn [needs_quote existsb] in Hf. apply orb_false_iff in Hf as [Hc Hf].
      destruct (special_false _ Hc) as (_ & _ & Hr & Hl).
      cbn [app]. rewrite feed_plain.
      * rewrite (pc_start_data _ _ _ Hc), (feed_unquoted _ _ _ Hf)
          by discriminate.
        rewrite (@feed_crlf _ _ _ _ rest (pc_field_cr _ _) (pc_eat_lf _ _)
                   (pc_eat_eol _ _)).
        reflexivity.
      * unfold is_nl. rewrite Hr, Hl. reflexivity.
      * destruct f; discriminate.
Qed.

(** The fields of a record, from the start of a field on. *)
Lemma feed_fields (l : list str) (fs : list str) (rest : str) :
  l <> [] ->
  feed (mk START_FIELD [] fs) (join [comma] (map write_field l) ++ CRLF ++ rest)
  = option_map (cons (fs ++ l)) (feed fresh rest).
Proof.
  revert fs. induction l as [|f [|g more] IH]; intros fs Hne; [congruence | |].
  - cbn [map join]. apply feed_field_crlf.
  - change (join [comma] (map write_field (f :: g :: more)))
      with (write_field f ++ [comma]
            ++ join [comma] (map write_field (g :: more))).
    rewrite <- !app_assoc. cbn [app].
    rewrite feed_field_comma
      by (destruct (join [comma] (map write_field (g :: more))); discriminate).
    rewrite IH by discriminate. rewrite <- app_assoc. reflexivity.
Qed.

Lemma feed_start_record (c : ascii) (t : str) :
  is_nl c = false ->
  feed fresh (c :: t) = feed (mk START_FIELD [] []) (c :: t).
Proof.
  intros H. pose proof H as H'. unfold is_nl in H'.
  apply orb_false_iff in H' as [Hl Hr].
  unfold feed. cbn [splitlines]. rewrite Hl, Hr.
  destruct (splitlines t); cbn [read_records read_line]; unfold fresh;
    rewrite (pc_record_as_field _ _ _ H); reflexivity.
Qed.

(** A record that is neither empty nor a single empty field starts with a
    character that ends no line. *)
Lemma record_head (f : str) (more : list str) (rest : str) :
  f <> [] \/ more <> [] ->
  exists c t,
    join [comma] (map write_field (f :: more)) ++ rest = c :: t /\
    is_nl c = false.
Proof.
  intros H.
  destruct (map write_field (f :: more)) as [|wf wmore] eqn:E;
    [discriminate|].
  cbn [map] in E. injection E as E1 E2.
  assert (Hwf : (exists c t, wf = c :: t /\ is_nl c = false) \/
                (wf = [] /\ more <> [])).
  { subst wf. unfold write_field. destruct (needs_quote f) eqn:Hf.
    - left. eexists _, _. split; reflexivity.
    - destruct f as [|c f].
      + right. split; [reflexivity|]. destruct H; congruence.
      + left. exists c, f. split; [reflexivity|].
        cbn [needs_quote existsb] in Hf.
        apply orb_false_iff in Hf as [Hc _].
        destruct (special_false _ Hc) as (_ & _ & Hr & Hl).
        unfold is_nl. rewrite Hr, Hl. reflexivity. }
  destruct Hwf as [(c & t & -> & Hc) | [-> Hm]].
  - destruct wmore; cbn [join app]; eexists _, _; split;
      try reflexivity; assumption.
  - destruct more as [|g more]; [congruence|]. cbn [map] in E2. subst wmore.
    cbn [join app]. eexists _, _. split; reflexivity.
Qed.

(** One record, from the start of a line. *)
Lemma feed_record (l : list str) (rest : str) :
  feed fresh (write_record l ++ rest) = option_map (cons l) (feed fresh rest).
Proof.
  destruct l as [|f more].
  - cbn [write_record map join app].
    change (feed (mk START_RECORD [] []) (CRLF ++ rest) =
            option_map (cons []) (feed fresh rest)).
    rewrite (@feed_crlf _ _ _ _ rest (pc_record_cr _ _) (pc_eat_lf _ _)
               (pc_eat_eol _ _)).
    reflexivity.
  - assert (Hcase : (f = [] /\ more = []) \/ (f <> [] \/ more <> [])).
    { destruct f; [destruct more|]; auto; right; [right | left];
        discriminate. }
    destruct Hcase as [[-> ->] | Hne].
    + cbn [write_record app].
      rewrite feed_plain by (try reflexivity; discriminate).
      unfold fresh. rewrite pc_record_as_field by reflexivity.
      rewrite pc_start_quote.
      rewrite feed_plain by (try reflexivity; discriminate).
      rewrite pc_quoted_quote.
      change (CR :: LF :: rest) with (CRLF ++ rest).
      rewrite (@feed_crlf _ _ _ _ rest (pc_qq_cr _ _) (pc_eat_lf _ _)
                 (pc_eat_eol _ _)).
      reflexivity.
    + assert (Ew : write_record (f :: more) =
                   join [comma] (map write_field (f :: more)) ++ CRLF).
      { destruct f; [destruct more|]; try reflexivity.
        destruct Hne; congruence. }
      rewrite Ew, <- app_assoc.
      destruct (@record_head f more (CRLF ++ rest) Hne) as (c & t & E & Hc).
      rewrite E, (@feed_start_record c t Hc), <- E.
      apply (@feed_fields (f :: more) [] rest). discriminate.
Qed.

(** Reading the text of a list of records gives the records back. *)
Lemma csv_roundtrip (records : list (list str)) :
  csv_reader (csv_text records) = Some records.
Proof.
  unfold csv_reader, csv_text.
  induction records as [|l records IH]; [reflexivity|].
  cbn [map concat]. rewrite feed_record, IH. reflexivity.
Qed.

End ReadBack.

(* ================================================================== *)
(** * Rows as dictionaries *)

Section Dictionaries.

Lemma dict_get_set (k k' : str) (v : value) (d : rowdict) :
  dict_get k (dict_set k' v d) =
  if str_eqb k k' then Some v else dict_get k d.
Proof.
  induction d as [|[k1 v1] r IH]; cbn [dict_set dict_get]; [reflexivity|].
  destruct (str_eqb k' k1) eqn:E1; cbn [dict_get].
  - apply str_eqb_eq in E1. subst k1.
    destruct (str_eqb k k'); reflexivity.
  - rewrite IH. destruct (str_eqb k k1) eqn:E2; [|reflexivity].
    apply str_eqb_eq in E2. subst k1.
    destruct (str_eqb k k') eqn:E3; [|reflexivity].
    apply str_eqb_eq in E3. subst k'. rewrite str_eqb_refl in E1.
    discriminate.
Qed.

Lemma keys_dict_set (k k' : str) (v : value) (d : rowdict) :
  In k (map fst (dict_set k' v d)) -> k = k' \/ In k (map fst d).
Proof.
  induction d as [|[k1 v1] r IH]; cbn [dict_set map fst In].
  - intros [H | []]; auto.
  - destruct (str_eqb k' k1); cbn [map fst In]; intuition auto.
Qed.

Lemma keys_fold (kvs : list (str * value)) (d : rowdict) (k : str) :
  In k (map fst (fold_left assign kvs d)) ->
  In k (map fst kvs) \/ In k (map fst d).
Proof.
  revert d; induction kvs as [|[k1 v1] kvs IH]; intros d; cbn [fold_left];
    auto.
  intros H. apply IH in H as [H | H]; [left; right; assumption|].
  apply keys_dict_set in H as [H | H]; cbn [map fst In]; auto.
Qed.

Lemma get_fold_other (kvs : list (str * value)) (d : rowdict) (k : str) :
  ~ In k (map fst kvs) ->
  dict_get k (fold_left assign kvs d) = dict_get k d.
Proof.
  revert d; induction kvs as [|[k1 v1] kvs IH]; intros d H; cbn [fold_left];
    auto.
  cbn [map fst In] in H. rewrite IH by tauto.
  unfold assign. cbn [fst snd]. rewrite dict_get_set.
  destruct (str_eqb k k1) eqn:E; [|reflexivity].
  apply str_eqb_eq in E. subst k1. tauto.
Qed.

Lemma keys_combine (names : list str) (vals : list value) (k : str) :
  In k (map fst (combine names vals)) -> In k names.
Proof.
  intros H. apply in_map_iff in H as ([k' v] & <- & H).
  apply in_combine_l in H. exact H.
Qed.

Lemma filter_none {A} (f : A -> bool) (l : list A) :
  (forall x, In x l -> f x = false) -> filter f l = [].
Proof.
  induction l as [|x l IH]; intros H; [reflexivity|].
  cbn [filter]. rewrite (H x (or_introl eq_refl)).
  apply IH. intros y Hy. apply H. right; assumption.
Qed.

(** A row built from the descriptor has no key outside the descriptor. *)
Lemma wrong_fields_nil (names : list str) (vals : list value) :
  wrong_fields names (real_dict_row names vals) = [].
Proof.
  unfold wrong_fields, real_dict_row. apply filter_none.
  intros k H. apply keys_fold in H as [H | []].
  apply keys_combine in H. apply negb_false_iff, existsb_exists.
  exists k; split; [assumption | apply str_eqb_refl].
Qed.

(** With distinct column names a row gives back the fetched values. *)
Lemma dict_to_list_row (names : list str) (vals : list value) :
  NoDup names -> length vals = length names ->
  dict_to_list names (real_dict_row names vals) = vals.
Proof.
  unfold dict_to_list, real_dict_row.
  generalize (@nil (str * value)) as d.
  intros d Hnd. revert vals d.
  induction Hnd as [|n ns Hn Hnd IH]; intros [|v vs] d Hlen;
    try discriminate; [reflexivity|].
  cbn [combine fold_left map]. f_equal.
  - rewrite get_fold_other
      by (intros H; apply keys_combine in H; contradiction).
    unfold assign. cbn [fst snd]. rewrite dict_get_set, str_eqb_refl.
    reflexivity.
  - cbn [length] in Hlen. injection Hlen as Hlen.
    apply IH. exact Hlen.
Qed.

Lemma row_fields_distinct (names : list str) (vals : list value) :
  NoDup names -> length vals = length names ->
  row_fields names vals = map value_text vals.
Proof.
  intros H1 H2. unfold row_fields. rewrite dict_to_list_row; auto.
Qed.

Lemma combine_halves {A B} (l1 l2 : list A) (m1 m2 : list B) :
  length m1 = length l1 ->
  combine (l1 ++ l2) (m1 ++ m2) = combine l1 m1 ++ combine l2 m2.
Proof.
  revert m1; induction l1 as [|x l1 IH]; intros [|y m1] H; try discriminate;
    [reflexivity|].
  cbn [app combine]. rewrite IH by (cbn in H; lia). reflexivity.
Qed.

(** The value a row holds for a column name is the one fetched for the
    last column of that name. *)
Lemma real_dict_row_last (pre post : list str) (k : str) (vpre vpost : list value)
    (v : value) :
  ~ In k post -> length vpre = length pre ->
  dict_get k (real_dict_row (pre ++ k :: post) (vpre ++ v :: vpost)) = Some v.
Proof.
  intros Hk Hlen. unfold real_dict_row.
  rewrite combine_halves by assumption. cbn [combine].
  rewrite fold_left_app. cbn [fold_left].
  rewrite get_fold_other
    by (intros H; apply keys_combine in H; contradiction).
  unfold assign at 1. cbn [fst snd]. rewrite dict_get_set, str_eqb_refl.
  reflexivity.
Qed.


(** The header row gives the column names, duplicates or not. *)
Lemma header_fields (names : list str) :
  row_fields names (map PyStr names) = names.
Proof.
  unfold row_fields, dict_to_list, real_dict_row.
  set (kvs := combine names (map PyStr names)).
  assert (Hkv : forall k v, In (k, v) kvs -> v = PyStr k).
  { subst kvs. induction names as [|n ns IH]; cbn [map combine In];
      [tauto|].
    intros k v [H | H]; [inversion H; reflexivity | auto]. }
  assert (Hkeys : forall k, In k names -> In k (map fst kvs)).
  { subst kvs. clear Hkv. induction names as [|n ns IH];
      cbn [map combine In fst]; [tauto|].
    intros k [H | H]; auto. }
  assert (Hget : forall l d k,
            (forall k v, In (k, v) l -> v = PyStr k) ->
            (forall k v, dict_get k d = Some v -> v = PyStr k) ->
            In k (map fst l) \/ dict_get k d <> None ->
            dict_get k (fold_left assign l d) = Some (PyStr k)).
  { induction l as [|[k1 v1] l IH]; intros d k Hl Hd Hin; cbn [fold_left].
    - destruct Hin as [[] | Hin]. destruct (dict_get k d) as [v|] eqn:E;
        [|congruence]. rewrite (Hd _ _ E). reflexivity.
    - apply IH.
      + intros k' v' H'. apply Hl. right; assumption.
      + intros k' v'. unfold assign. cbn [fst snd]. rewrite dict_get_set.
        destruct (str_eqb k' k1) eqn:E.
        * apply str_eqb_eq in E. subst k'. intros [= <-].
          apply Hl. left; reflexivity.
        * apply Hd.
      + unfold assign. cbn [fst snd]. rewrite dict_get_set.
        destruct (str_eqb k k1) eqn:E; [right; discriminate|].
        destruct Hin as [[H | H] | H]; auto.
        cbn [fst] in H. subst k1. rewrite str_eqb_refl in E. discriminate. }
  rewrite map_map.
  rewrite <- (map_id names) at 2. apply map_ext_in. intros k Hk.
  rewrite (Hget kvs [] k Hkv); [reflexivity | discriminate | auto].
Qed.

End Dictionaries.

(* ================================================================== *)
(** * The query stage: the file *)

Section ExportRows.

Variable w : world.
Variable path : str.
Variable names : list str.

Hypothesis writes_fine : forall i, w_write w i = None.

Lemma writerow_fine (i : nat) (vals : list value) (s : sys) (old : str) :
  fs s path = Some old ->
  exists s',
    DictWriter_writerow w path names i (real_dict_row names vals) s
      = (Ok tt, s') /\
    fs s' path = Some (old ++ write_record (row_fields names vals)).
Proof.
  intros Hold. unfold DictWriter_writerow. rewrite wrong_fields_nil.
  unfold file_write, bind, log, check, get_file, set_file.
  rewrite writes_fine. cbn. rewrite Hold. eexists. split; [reflexivity|].
  cbn. unfold update. rewrite str_eqb_refl. reflexivity.
Qed.

Lemma write_rows_fine (rows : list (list value)) (i : nat) (s : sys)
    (old : str) :
  fs s path = Some old ->
  exists s',
    write_rows w path names i (map Fine rows) s = (Ok tt, s') /\
    fs s' path = Some (old ++ csv_text (map (row_fields names) rows)).
Proof.
  revert i s old. induction rows as [|vals rows IH]; intros i s old Hold.
  - exists s. cbn. rewrite app_nil_r. auto.
  - cbn [map write_rows]. unfold bind.
    destruct (writerow_fine i vals s Hold) as (s1 & -> & H1).
    destruct (IH (S i) s1 _ H1) as (s2 & -> & H2).
    exists s2. split; [reflexivity|].
    rewrite H2. unfold csv_text. cbn [map concat].
    rewrite <- app_assoc. reflexivity.
Qed.

End ExportRows.

Section ExportStage.

Variable w : world.

(** When nothing fails, the stage returns and leaves in the file the
    header record followed by one record for each fetched row. *)
Lemma run_query_fine (p : conn_params) (q path : str) (names : list str)
    (rows : list (list value)) (s : sys) :
  w_connect w p = None ->
  w_cursor w = None ->
  w_execute w q = Fine names ->
  w_fetch w = map Fine rows ->
  w_open_w w path = None ->
  (forall i, w_write w i = None) ->
  exists s',
    run_query_and_write_csv w p q path s = (Ok tt, s') /\
    fs s' path = Some (csv_text (names :: map (row_fields names) rows)).
Proof.
  intros Hc Hk He Hf Ho Hw. rewrite run_query_connected by assumption.
  unfold try_finally, export_body.
  unfold bind at 1, cur_execute, bind at 1, log. rewrite He.
  unfold ret at 1, bind at 1, open_w, bind at 1, log, bind at 1, check.
  rewrite Ho. unfold ret at 1, set_file at 1, bind at 1.
  unfold DictWriter_writeheader.
  match goal with
  | |- context [DictWriter_writerow _ _ _ _ _ ?s0] =>
      destruct (@writerow_fine w path names Hw 0 (map PyStr names) s0 [])
        as (s1 & -> & H1)
  end.
  { cbn. unfold update. rewrite str_eqb_refl. reflexivity. }
  rewrite header_fields in H1. cbn [app] in H1. rewrite Hf.
  destruct (@write_rows_fine w path names Hw rows 1 s1 _ H1)
    as (s2 & -> & H2).
  rewrite release_run. eexists. split; [reflexivity|].
  cbn [fs]. rewrite H2. unfold csv_text. cbn [map concat]. reflexivity.
Qed.

End ExportStage.

(* ================================================================== *)
(** * Records and physical lines *)

Section Lines.

#[local] Arguments Ascii.eqb : simpl never.

Lemma splitlines_terminated (body rest : str) :
  no_newline body = true ->
  splitlines (body ++ CRLF ++ rest) = (body ++ CRLF) :: splitlines rest.
Proof.
  induction body as [|c body IH]; intros H.
  - reflexivity.
  - cbn [no_newline forallb] in H. apply andb_true_iff in H as [Hc Hb].
    apply negb_true_iff in Hc. unfold is_nl in Hc.
    apply orb_false_iff in Hc as [Hl Hr].
    cbn [app splitlines]. rewrite Hl, Hr.
    change (body ++ CR :: LF :: rest) with (body ++ CRLF ++ rest).
    rewrite (IH Hb). reflexivity.
Qed.

Lemma no_newline_app (a b : str) :
  no_newline (a ++ b) = no_newline a && no_newline b.
Proof. apply forallb_app. Qed.

Lemma write_field_no_newline (f : str) :
  no_newline f = true -> no_newline (write_field f) = true.
Proof.
  intros H. unfold write_field. destruct (needs_quote f); [|assumption].
  cbn [no_newline forallb]. change (negb (is_nl dquote)) with true.
  cbn [andb]. fold (no_newline (double_quotes f ++ [dquote])).
  rewrite no_newline_app. rewrite andb_true_r.
  induction f as [|c f IH]; [reflexivity|].
  cbn [no_newline forallb] in H. apply andb_true_iff in H as [Hc Hf].
  cbn [double_quotes]. destruct (Ascii.eqb c dquote);
    cbn [no_newline forallb]; fold (no_newline (double_quotes f));
    rewrite (IH Hf), ?Hc; reflexivity.
Qed.

Lemma join_no_newline (l : list str) :
  forallb no_newline l = true -> no_newline (join [comma] l) = true.
Proof.
  induction l as [|x [|y r] IH]; intros H; [reflexivity | |].
  - cbn [forallb] in H. apply andb_true_iff in H as [H _]. exact H.
  - change (forallb no_newline (x :: y :: r))
      with (no_newline x && forallb no_newline (y :: r)) in H.
    apply andb_true_iff in H as [Hx Hr].
    change (join [comma] (x :: y :: r))
      with (x ++ [comma] ++ join [comma] (y :: r)).
    rewrite !no_newline_app, Hx, (IH Hr). reflexivity.
Qed.

(** A record whose fields hold no CR and no LF is one physical line. *)
Lemma write_record_line (l : list str) :
  forallb no_newline l = true ->
  exists body, write_record l = body ++ CRLF /\ no_newline body = true.
Proof.
  intros H.
  assert (Hj : no_newline (join [comma] (map write_field l)) = true).
  { apply join_no_newline. rewrite forallb_forall in *.
    intros x Hx. apply in_map_iff in Hx as (f & <- & Hf).
    apply write_field_no_newline. auto. }
  destruct l as [|[|c f] [|g more]];
    eexists; (split; [reflexivity | exact Hj]).
Qed.

Lemma splitlines_records (records : list (list str)) :
  forallb (forallb no_newline) records = true ->
  splitlines (csv_text records) = map write_record records.
Proof.
  unfold csv_text. induction records as [|l records IH]; intros H;
    [reflexivity|].
  cbn [forallb] in H. apply andb_true_iff in H as [Hl Hr].
  cbn [map concat].
  destruct (write_record_line l Hl) as (body & E & Hb).
  rewrite E at 1. rewrite <- app_assoc, splitlines_terminated by assumption.
  rewrite (IH Hr), E. reflexivity.
Qed.

End Lines.



(* ================================================================== *)
(** * Properties of the exported file *)

(** C4, as the code has it.  For a query result of N rows and K columns,
    when nothing fails, the stage returns and the file consists of N+1
    records, each ended by CR LF: first the K column names in the order of
    the descriptor, then one record for each row, in the order of the
    result; a csv reader gets exactly these N+1 records back.  The records
    are N+1 physical lines when no column name and no value holds a CR or
    an LF.  When the column names are distinct, the record of a row holds
    the texts of its values. *)
Theorem export_has_header_and_rows (w : world) (p : conn_params)
    (q path : str) (names : list str) (rows : list (list value)) (s : sys) :
  w_connect w p = None ->
  w_cursor w = None ->
  w_execute w q = Fine names ->
  w_fetch w = map Fine rows ->
  w_open_w w path = None ->
  (forall i, w_write w i = None) ->
  let run := run_query_and_write_csv w p q path s in
  let records := names :: map (row_fields names) rows in
  fst run = Ok tt /\
  fs (snd run) path = Some (csv_text records) /\
  length records = S (length rows) /\
  csv_reader (csv_text records) = Some records /\
  (forallb (forallb no_newline) records = true ->
   splitlines (csv_text records) = map write_record records /\
   length (splitlines (csv_text records)) = S (length rows)) /\
  (NoDup names -> Forall (fun vals => length vals = length names) rows ->
   map (row_fields names) rows = map (map value_text) rows).
Proof.
  intros Hc Hk He Hf Ho Hw run records.
  destruct (@run_query_fine w p q path names rows s Hc Hk He Hf Ho Hw)
    as (s' & E & Hfile).
  subst run. rewrite E. cbn [fst snd].
  split; [reflexivity|]. split; [exact Hfile|].
  split; [subst records; cbn [length]; rewrite length_map; reflexivity|].
  split; [apply csv_roundtrip|]. split.
  - intros Hn. rewrite (splitlines_records _ Hn). split; [reflexivity|].
    subst records. rewrite length_map. cbn [length].
    rewrite length_map. reflexivity.
  - intros Hnd Hall. apply map_ext_in. intros vals Hv.
    rewrite Forall_forall in Hall. apply row_fields_distinct; auto.
Qed.

Lemma export_has_header_and_rows_calm :
  let run := run_query_and_write_csv Sample.calm Sample.params
               (lit "SELECT id, name FROM users") (lit "out.csv")
               (boot Sample.no_files) in
  fst run = Ok tt /\
  fs (snd run) (lit "out.csv") = Some Sample.exported /\
  length (splitlines Sample.exported) = 3.
Proof.
  intros run.
  destruct (@export_has_header_and_rows Sample.calm Sample.params
              (lit "SELECT id, name FROM users") (lit "out.csv")
              [lit "id"; lit "name"]
              [[PyOther (lit "1"); PyStr (lit "Ann, B.")];
               [PyOther (lit "2"); PyNone]]
              (boot Sample.no_files)
              eq_refl eq_refl eq_refl eq_refl eq_refl (fun _ => eq_refl))
    as (H1 & H2 & _ & _ & H5 & _).
  split; [exact H1|]. split; [exact H2|].
  exact (proj2 (H5 eq_refl)).
Defined.

(** C4 as the specification words it fails: a value of two lines makes a
    file of one row (N = 1) three physical lines long. *)
Lemma embedded_newline_adds_a_line :
  let run := run_query_and_write_csv Sample.notes Sample.params
               (lit "SELECT note FROM notes") (lit "out.csv")
               (boot Sample.no_files) in
  fst run = Ok tt /\
  length (w_fetch Sample.notes) = 1 /\
  option_map (fun text => length (splitlines text))
    (fs (snd run) (lit "out.csv")) = Some 3 /\
  option_map (fun text => length (splitlines text))
    (fs (snd run) (lit "out.csv")) <> Some (length (w_fetch Sample.notes) + 1).
Proof.
  vm_compute. repeat split. discriminate.
Qed.




(* ================================================================== *)
(** * Further properties: paths and URLs *)





(* ================================================================== *)
(** * What a computation keeps *)

Section Keeps.

Context {A B : Type}.
Variable R : sys -> sys -> Prop.
Hypothesis R_refl : forall s, R s s.
Hypothesis R_trans : forall s1 s2 s3, R s1 s2 -> R s2 s3 -> R s1 s3.

Lemma keeps_ret (a : A) : keeps R (ret a).
Proof. intros s. apply R_refl. Qed.

Lemma keeps_raise (e : exn) : keeps R (@raise A e).
Proof. intros s. apply R_refl. Qed.

Lemma keeps_bind (m : M A) (k : A -> M B) :
  keeps R m -> (forall a, keeps R (k a)) -> keeps R (bind m k).
Proof.
  intros Hm Hk s. unfold bind. specialize (Hm s).
  destruct (m s) as [[a | e] s1]; cbn [snd] in *; [|assumption].
  eapply R_trans; [exact Hm | apply Hk].
Qed.

Lemma keeps_try_finally (body : M A) (cleanup : M unit) :
  keeps R body -> keeps R cleanup -> keeps R (try_finally body cleanup).
Proof.
  intros Hb Hc s. unfold try_finally. specialize (Hb s).
  destruct (body s) as [r s1]. specialize (Hc s1).
  destruct (cleanup s1) as [[[] | e] s2]; cbn [snd] in *;
    eapply R_trans; eassumption.
Qed.

Lemma keeps_try_except (body : M A) (handler : str -> M A) :
  keeps R body -> (forall what, keeps R (handler what)) ->
  keeps R (try_except body handler).
Proof.
  intros Hb Hh s. unfold try_except. specialize (Hb s).
  destruct (body s) as [[a | [kind what | code]] s1]; cbn [snd] in *;
    try assumption.
  eapply R_trans; [exact Hb | apply Hh].
Qed.

Lemma keeps_get_file (path : str) : keeps R (get_file path).
Proof. intros s. apply R_refl. Qed.

End Keeps.

Lemma keeps_check (R : sys -> sys -> Prop) (kind : errkind)
    (o : option str) :
  (forall s, R s s) -> keeps R (check kind o).
Proof. intros H. destruct o; intros s; apply H. Qed.

(** Break a computation down to its primitive steps, given that the
    relation is a preorder. *)
Ltac keeps_step Hrefl Htrans :=
  first
    [ assumption
    | apply keeps_bind; [exact Htrans | | intros ?]
    | apply keeps_try_finally; [exact Htrans | | ]
    | apply keeps_try_except; [exact Htrans | | intros ?]
    | apply keeps_ret; exact Hrefl
    | apply keeps_raise; exact Hrefl
    | apply keeps_get_file; exact Hrefl
    | apply keeps_check; exact Hrefl
    | match goal with
      | |- keeps _ (match ?x with _ => _ end) => destruct x
      | |- keeps _ (if ?x then _ else _) => destruct x
      | |- keeps _ (let (_, _) := ?x in _) => destruct x
      end ].

Section FilesKept.

Variable w : world.
Variable path : str.

Lemma other_files_refl (s : sys) : other_files path s s.
Proof. intros q _. reflexivity. Qed.

Lemma other_files_trans (s1 s2 s3 : sys) :
  other_files path s1 s2 -> other_files path s2 s3 -> other_files path s1 s3.
Proof. intros H1 H2 q Hq. rewrite (H2 q Hq). apply H1, Hq. Qed.

Lemma keeps_other_log (e : event) : keeps (other_files path) (log e).
Proof. intros s q _. reflexivity. Qed.

Lemma keeps_other_set_conn (b : bool) : keeps (other_files path) (set_conn b).
Proof. intros s q _. reflexivity. Qed.

Lemma keeps_other_set_cursor (b : bool) :
  keeps (other_files path) (set_cursor b).
Proof. intros s q _. reflexivity. Qed.

Lemma keeps_other_set_file (v : option str) :
  keeps (other_files path) (set_file path v).
Proof.
  intros s q Hq. cbn. unfold update.
  apply str_eqb_neq in Hq. rewrite Hq. reflexivity.
Qed.

Ltac files_auto :=
  pose proof keeps_other_log; pose proof keeps_other_set_conn;
  pose proof keeps_other_set_cursor; pose proof keeps_other_set_file;
  repeat (first [ solve [auto]
                | keeps_step other_files_refl other_files_trans ]).

Lemma write_rows_other_files (names : list str) (i : nat)
    (rows : list (outcome (list value))) :
  keeps (other_files path) (write_rows w path names i rows).
Proof.
  revert i; induction rows as [|[vals | what] rows IH]; intros i;
    cbn [write_rows].
  - apply keeps_ret, other_files_refl.
  - apply keeps_bind; [exact other_files_trans | | intros _; apply IH].
    unfold DictWriter_writerow, file_write. files_auto.
  - apply keeps_raise, other_files_refl.
Qed.

Lemma run_query_other_files (p : conn_params) (q : str) :
  keeps (other_files path) (run_query_and_write_csv w p q path).
Proof.
  unfold run_query_and_write_csv, pg_connect, conn_cursor, export_body,
    release, cur_execute, open_w, DictWriter_writeheader,
    DictWriter_writerow, file_write, cur_close, conn_close.
  pose proof write_rows_other_files. files_auto.
Qed.

Lemma cleanup_other_files : keeps (other_files path) (cleanup w path).
Proof. unfold cleanup, print. files_auto. Qed.

End FilesKept.

(* ================================================================== *)
(** * The run of [main], stage by stage *)

Section Stages.

Variable w : world.

Lemma pipeline_split (a : args) (p : conn_params) (yad_token name lp : str) :
  pipeline w a p yad_token name lp =
  (print Stdout (MsgQuerying lp) ;;
   run_query_and_write_csv w p (query a) lp ;;
   publish w a yad_token name lp).
Proof. reflexivity. Qed.

(** Since the [finally] clause of [main] never raises, the outcome is the
    one of the body. *)
Lemma try_finally_cleanup {A} (body : M A) (path : str) (s : sys) :
  try_finally body (cleanup w path) s =
  (fst (body s), snd (cleanup w path (snd (body s)))).
Proof.
  unfold try_finally. destruct (body s) as [r s1]. cbn [fst snd].
  pose proof (cleanup_ok w path s1) as H.
  destruct (cleanup w path s1) as [[[] | e] s2]; cbn [fst snd] in *;
    [reflexivity | discriminate].
Qed.

Lemma choose_local_path_run (a : args) (s : sys) :
  choose_local_path w a s =
  if opt_truthy (local_temp a) then (Ok (or_else (local_temp a) []), s)
  else match w_mkstemp w with
       | Fine path =>
           (Ok path, snd (set_file path (Some []) (add_trace s [EMkstemp])))
       | Fails what =>
           (Raise (PyException OsError what), add_trace s [EMkstemp])
       end.
Proof.
  unfold choose_local_path, os_mkstemp, bind, log.
  destruct (opt_truthy (local_temp a)); [reflexivity|].
  destruct (w_mkstemp w); reflexivity.
Qed.

(** The directory step and the upload, from the state the query stage
    leaves. *)
Lemma publish_run (a : args) (yad_token name lp : str) (s : sys) :
  let url := remote_file_url (remote_dir a) name in
  let auth := (or_else (yandex_login a) [], yad_token) in
  let l := mkcol_trace w auth 0
             (prefix_urls (split slash (strip slash (remote_dir a))))
           ++ [EPrint Stdout (MsgUploading lp url); EOpenR lp] in
  publish w a yad_token name lp s =
  match fs s lp with
  | None =>
      (Raise (PyException OsError (lit "No such file or directory")),
       add_trace s l)
  | Some data =>
      match w_open_r w lp with
      | Some what => (Raise (PyException OsError what), add_trace s l)
      | None =>
          match w_put w url data with
          | Response status text =>
              report_upload name (status, text)
                (add_trace s (l ++ [EPut url auth data]))
          | Failed what =>
              (Raise (PyException TransportError what),
               add_trace s (l ++ [EPut url auth data]))
          end
      end
  end.
Proof.
  intros url auth l. unfold publish. fold url. fold auth.
  unfold bind at 1. rewrite make_remote_dirs_run.
  unfold bind at 1, print at 1, log at 1. rewrite add_trace_app.
  unfold bind at 1, upload_file_to_yadisk.
  unfold bind at 1, log at 1. rewrite add_trace_app.
  unfold bind at 1, get_file at 1. cbn [fs add_trace].
  assert (El : (mkcol_trace w auth 0
                  (prefix_urls (split slash (strip slash (remote_dir a))))
                ++ [EPrint Stdout (MsgUploading lp url)]) ++ [EOpenR lp] = l)
    by (unfold l; rewrite <- app_assoc; reflexivity).
  rewrite El.
  destruct (fs s lp) as [data|]; [|reflexivity].
  unfold bind at 1. destruct (w_open_r w lp); cbn [check]; [reflexivity|].
  unfold ret at 1, bind at 1, log at 1. rewrite add_trace_app.
  destruct (w_put w url data); reflexivity.
Qed.

(** The upload, on its own. *)
Lemma upload_run (lp url : str) (auth : credentials) (s : sys) :
  upload_file_to_yadisk w lp url auth s =
  match fs s lp with
  | None =>
      (Raise (PyException OsError (lit "No such file or directory")),
       add_trace s [EOpenR lp])
  | Some data =>
      match w_open_r w lp with
      | Some what => (Raise (PyException OsError what), add_trace s [EOpenR lp])
      | None =>
          (match w_put w url data with
           | Response status text => Ok (status, text)
           | Failed what => Raise (PyException TransportError what)
           end,
           add_trace s [EOpenR lp; EPut url auth data])
      end
  end.
Proof.
  unfold upload_file_to_yadisk, bind, log, get_file. cbn [fs add_trace].
  destruct (fs s lp) as [data|]; [|reflexivity].
  destruct (w_open_r w lp); cbn [check]; [reflexivity|].
  unfold ret. rewrite add_trace_app.
  destruct (w_put w url data); reflexivity.
Qed.

End Stages.

Lemma put_requests_app (l1 l2 : list event) :
  put_requests (l1 ++ l2) = put_requests l1 ++ put_requests l2.
Proof.
  induction l1 as [|e l1 IH]; [reflexivity|].
  destruct e; cbn [app put_requests]; rewrite ?IH; reflexivity.
Qed.

Lemma put_requests_none (l : list event) :
  forallb not_put l = true -> put_requests l = [].
Proof.
  induction l as [|e l IH]; [reflexivity|]. cbn [forallb].
  rewrite andb_true_iff. intros [He Hl].
  destruct e; cbn [put_requests]; try (apply IH; assumption). discriminate.
Qed.

(** X2.  The upload changes no file and no database handle.  When the
    local file is missing, or cannot be opened, it raises an OS error and
    sends nothing; otherwise it sends exactly one PUT request, whose body
    is the content of the file, and returns the status and the body of the
    response as they are; a transport error propagates. *)
Theorem upload_sends_the_file_or_nothing (w : world) (lp url : str)
    (auth : credentials) (s : sys) :
  let run := upload_file_to_yadisk w lp url auth s in
  same_files s (snd run) /\ same_handles s (snd run) /\
  (fs s lp = None \/ w_open_r w lp <> None ->
   (exists what, fst run = Raise (PyException OsError what)) /\
   put_requests (trace (snd run)) = put_requests (trace s)) /\
  (forall data,
     fs s lp = Some data -> w_open_r w lp = None ->
     put_requests (trace (snd run)) = put_requests (trace s) ++ [(url, data)]
     /\
     fst run = match w_put w url data with
               | Response status text => Ok (status, text)
               | Failed what => Raise (PyException TransportError what)
               end).
Proof.
  cbv zeta. rewrite upload_run.
  split; [|split; [|split]].
  - intros q. destruct (fs s lp); [destruct (w_open_r w lp)|]; reflexivity.
  - destruct (fs s lp); [destruct (w_open_r w lp)|]; split; reflexivity.
  - intros H. destruct (fs s lp) as [data|].
    + destruct (w_open_r w lp) as [what|]; [|destruct H; congruence].
      cbn [fst snd trace add_trace]. rewrite put_requests_app, app_nil_r.
      split; [eexists; reflexivity | reflexivity].
    + cbn [fst snd trace add_trace]. rewrite put_requests_app, app_nil_r.
      split; [eexists; reflexivity | reflexivity].
  - intros data -> ->. cbn [fst snd trace add_trace].
    rewrite put_requests_app. split; reflexivity.
Qed.

Lemma upload_sends_the_file_or_nothing_missing :
  let run := upload_file_to_yadisk Sample.calm (lit "out.csv") Sample.put_url
               Sample.auth (boot Sample.no_files) in
  (exists what, fst run = Raise (PyException OsError what)) /\
  put_requests (trace (snd run)) = [].
Proof.
  intros run.
  destruct (upload_sends_the_file_or_nothing Sample.calm (lit "out.csv")
              Sample.put_url Sample.auth (boot Sample.no_files))
    as (_ & _ & H & _).
  apply H. left; reflexivity.
Defined.

(** X3.  [ensure_remote_dir_exists] sends exactly one MKCOL request and
    changes no file.  Given a response, it returns [True] exactly when the
    status is 405 or lies outside 400..599; so it returns [False] for 409.
    A transport error is not caught. *)
Theorem ensure_remote_dir_exists_outcome (w : world) (url : str)
    (auth : credentials) (s : sys) :
  let run := ensure_remote_dir_exists w url auth s in
  trace (snd run) = trace s ++ [EMkcol url auth] /\
  same_files s (snd run) /\
  (forall status text,
     w_mkcol w 0 url = Response status text ->
     exists b, fst run = Ok b /\
               (b = true <-> (status = 405 \/ status < 400 \/ 600 <= status)%Z))
  /\
  (forall text, w_mkcol w 0 url = Response 409 text -> fst run = Ok false) /\
  (forall what,
     w_mkcol w 0 url = Failed what ->
     fst run = Raise (PyException TransportError what)).
Proof.
  cbv zeta. unfold ensure_remote_dir_exists, request_mkcol, bind, log.
  split; [|split; [|split; [|split]]].
  - destruct (w_mkcol w 0 url) as [status text | what]; [|reflexivity].
    cbn. destruct (_ || _)%bool; reflexivity.
  - intros q. destruct (w_mkcol w 0 url) as [status text | what];
      [|reflexivity].
    cbn. destruct (_ || _)%bool; reflexivity.
  - intros status text ->. cbn.
    destruct (status =? 201)%Z eqn:E1; [apply Z.eqb_eq in E1|];
      [|destruct (status =? 405)%Z eqn:E2; [apply Z.eqb_eq in E2|]];
      cbn; try (eexists; split; [reflexivity|]; split; [lia | reflexivity]).
    apply Z.eqb_neq in E1, E2.
    destruct ((400 <=? status) && (status <? 600))%Z eqn:E3; cbn;
      eexists; (split; [reflexivity|]).
    + apply andb_true_iff in E3 as [H1 H2].
      apply Z.leb_le in H1. apply Z.ltb_lt in H2.
      split; [discriminate | lia].
    + split; [intros _ | reflexivity].
      apply andb_false_iff in E3 as [H | H];
        [apply Z.leb_gt in H | apply Z.ltb_ge in H]; lia.
  - intros text ->. reflexivity.
  - intros what ->. reflexivity.
Qed.

Lemma ensure_remote_dir_exists_outcome_conflict :
  let w := Sample.with_mkcol (fun _ _ => Response 409 []) Sample.calm in
  fst (ensure_remote_dir_exists w (lit "https://webdav.yandex.ru/a")
         Sample.auth (boot Sample.no_files)) = Ok false.
Proof.
  intros w.
  destruct (ensure_remote_dir_exists_outcome w
              (lit "https://webdav.yandex.ru/a") Sample.auth
              (boot Sample.no_files)) as (_ & _ & _ & H & _).
  apply (H []). reflexivity.
Defined.

(* ================================================================== *)
(** * Further properties of [main] *)

Section MainStages.

Variable w : world.

(** [main] past its checks, with the local path chosen: the query stage,
    then either the cleanup alone, or the publication and the cleanup. *)
Lemma main_stages (token : option str) (a : args) (s s' : sys) (path : str) :
  opt_truthy token = true -> opt_truthy (pg_user a) = true ->
  opt_truthy (pg_database a) = true ->
  choose_local_path w a s = (Ok path, s') ->
  main w token a s =
  let q := run_query_and_write_csv w (make_conn_params a) (query a) path
             (add_trace s' [EPrint Stdout (MsgQuerying path)]) in
  match fst q with
  | Raise e => (Raise e, snd (cleanup w path (snd q)))
  | Ok _ =>
      let r := publish w a (or_else token []) (make_remote_filename w a)
                 path (snd q) in
      (fst r, snd (cleanup w path (snd r)))
  end.
Proof.
  intros Ht Hu Hd E. rewrite main_run by assumption.
  unfold bind at 1. rewrite E, try_finally_cleanup, pipeline_split.
  unfold bind at 1 3, print, log. cbv zeta.
  unfold bind.
  destruct (run_query_and_write_csv w _ _ path _) as [[[] | e] s1];
    reflexivity.
Qed.

(** [main] when no temporary file can be made. *)
Lemma main_no_tempfile (token : option str) (a : args) (s : sys)
    (e : exn) (s' : sys) :
  opt_truthy token = true -> opt_truthy (pg_user a) = true ->
  opt_truthy (pg_database a) = true ->
  choose_local_path w a s = (Raise e, s') ->
  main w token a s = (Raise e, s').
Proof.
  intros Ht Hu Hd E. rewrite main_run by assumption.
  unfold bind at 1. rewrite E. reflexivity.
Qed.

End MainStages.

(** X4.  When the checks pass and neither the database, nor the local
    file, fails, [main] sends exactly one upload request: to the URL made
    of the stripped remote directory and the remote file name, with the
    CSV text of the header and of the fetched rows as its body. *)
Theorem exported_file_is_uploaded (w : world) (token : option str)
    (a : args) (files : str -> option str) (path : str) (names : list str)
    (rows : list (list value)) :
  opt_truthy token = true -> opt_truthy (pg_user a) = true ->
  opt_truthy (pg_database a) = true ->
  local_path_of w a = Some path ->
  w_connect w (make_conn_params a) = None ->
  w_cursor w = None ->
  w_execute w (query a) = Fine names ->
  w_fetch w = map Fine rows ->
  w_open_w w path = None ->
  (forall i, w_write w i = None) ->
  w_open_r w path = None ->
  put_requests (trace (snd (main w token a (boot files)))) =
    [(remote_file_url (remote_dir a) (make_remote_filename w a),
      csv_text (names :: map (row_fields names) rows))].
Proof.
  intros Ht Hu Hd Hp Hc Hk He Hf Ho Hw Hr.
  destruct (choose_local_path_cases w a (boot files))
    as [(path' & s' & E & Hp' & Ht') | (what & _ & Hn)]; [|congruence].
  assert (path' = path) by congruence. subst path'.
  rewrite (@main_stages w token a (boot files) s' path Ht Hu Hd E). cbv zeta.
  set (s0 := add_trace s' _).
  destruct (@run_query_fine w (make_conn_params a) (query a) path names rows
              s0 Hc Hk He Hf Ho Hw) as (s1 & E1 & Hfile).
  destruct (run_query_emits w (make_conn_params a) (query a) path s0)
    as (l1 & El1 & F1).
  rewrite E1 in *. cbn [fst snd] in *.
  pose proof (publish_run w a (or_else token []) (make_remote_filename w a)
                path s1) as Epub.
  cbv zeta in Epub. rewrite Hfile, Hr in Epub. rewrite Epub. clear Epub.
  set (url := remote_file_url _ _). set (data := csv_text _).
  set (auth := (or_else (yandex_login a) [], or_else token [])).
  set (l := mkcol_trace w auth 0 _ ++ _).
  assert (Fl : put_requests l = []).
  { apply put_requests_none. unfold l.
    rewrite forallb_app, mkcol_trace_no_put. reflexivity. }
  assert (F0 : put_requests (trace s1) = []).
  { rewrite El1. subst s0. cbn [trace add_trace].
    rewrite !put_requests_app.
    assert (put_requests l1 = []).
    { apply put_requests_none. apply forallb_forall. intros x Hx.
      rewrite forallb_forall in F1. specialize (F1 x Hx).
      destruct x; try discriminate; reflexivity. }
    rewrite H. destruct Ht' as [-> | ->]; reflexivity. }
  assert (Hfin : forall s2,
            put_requests (trace s2) = [(url, data)] ->
            put_requests (trace (snd (cleanup w path s2))) = [(url, data)]).
  { intros s2 H2.
    destruct (cleanup_emits_no_put w path s2) as (lc & -> & Fc).
    rewrite put_requests_app, H2, (put_requests_none _ Fc). reflexivity. }
  assert (Hput : put_requests (trace (add_trace s1 (l ++ [EPut url auth data])))
                 = [(url, data)]).
  { cbn [trace add_trace]. rewrite !put_requests_app, F0, Fl. reflexivity. }
  destruct (w_put w url data) as [status text | what].
  - rewrite report_upload_run.
    destruct (_ && _)%bool; cbn [fst snd]; apply Hfin;
      cbn [trace add_trace]; rewrite put_requests_app;
      cbn [trace add_trace] in Hput; rewrite Hput; reflexivity.
  - cbn [fst snd]. apply Hfin. exact Hput.
Qed.

Lemma exported_file_is_uploaded_calm :
  put_requests
    (trace (snd (main Sample.calm Sample.token Sample.cli
                   (boot Sample.no_files)))) =
    [(Sample.put_url, Sample.exported)].
Proof.
  exact (@exported_file_is_uploaded Sample.calm Sample.token Sample.cli
           Sample.no_files (lit "/tmp/pg_query_x.csv")
           [lit "id"; lit "name"]
           [[PyOther (lit "1"); PyStr (lit "Ann, B.")];
            [PyOther (lit "2"); PyNone]]
           eq_refl eq_refl eq_refl eq_refl eq_refl eq_refl eq_refl eq_refl
           eq_refl (fun _ => eq_refl) eq_refl).
Defined.

Section Outcomes.

Variable w : world.

Lemma not_request_not_put (l : list event) :
  forallb not_request l = true -> forallb not_put l = true.
Proof.
  rewrite !forallb_forall. intros H x Hx. specialize (H x Hx).
  destruct x; try discriminate; reflexivity.
Qed.

Lemma export_events_local (l : list event) :
  forallb is_export_event l = true -> forallb not_request l = true.
Proof.
  rewrite !forallb_forall. intros H x Hx. specialize (H x Hx).
  destruct x; try discriminate; reflexivity.
Qed.

Lemma cleanup_emits (P : event -> bool) (path : str) :
  (forall p, P (ERemove p) = true) ->
  (forall m, P (EPrint Stderr m) = true) ->
  emits P (cleanup w path).
Proof.
  intros Hr Hp s. rewrite cleanup_run.
  destruct (fs s path); [destruct (w_remove w path)|]; cbn [snd trace];
    eexists; (split; [reflexivity + (symmetry; apply app_nil_r)|]);
    cbn [forallb]; rewrite ?Hr, ?Hp; reflexivity.
Qed.

(** What the query stage raises comes from the query stage. *)
Lemma run_query_raises (p : conn_params) (q path : str) (s : sys) (e : exn) :
  fst (run_query_and_write_csv w p q path s) = Raise e ->
  from_query_stage e = true.
Proof.
  destruct (w_connect w p) as [what|] eqn:E.
  { rewrite (run_query_refused _ _ _ _ _ E). intros [= <-]. reflexivity. }
  destruct (w_cursor w) as [what|] eqn:Ek.
  { rewrite (run_query_no_cursor _ _ _ _ _ E Ek). intros [= <-].
    reflexivity. }
  pose proof (run_query_errors w p q path s Ek) as H. cbv zeta in H.
  intros He. rewrite He in H. destruct H as [H | (e' & [= <-] & H)];
    [discriminate|].
  destruct e as [[] ? | ?]; try discriminate; reflexivity.
Qed.

(** Before the publication no request has been sent. *)
Lemma query_stage_local (a : args) (files : str -> option str) (path : str)
    (s' : sys) :
  choose_local_path w a (boot files) = (Ok path, s') ->
  forallb not_request
    (trace (snd (run_query_and_write_csv w (make_conn_params a) (query a) path
                   (add_trace s' [EPrint Stdout (MsgQuerying path)]))))
  = true.
Proof.
  intros E.
  destruct (run_query_emits w (make_conn_params a) (query a) path
              (add_trace s' [EPrint Stdout (MsgQuerying path)]))
    as (l & -> & F).
  cbn [trace add_trace]. rewrite !forallb_app, (export_events_local _ F).
  rewrite choose_local_path_run in E.
  destruct (opt_truthy (local_temp a)).
  - injection E as _ <-. reflexivity.
  - destruct (w_mkstemp w); [|discriminate].
    injection E as _ <-. reflexivity.
Qed.

(** Every way [main] can end. *)
Lemma main_outcomes (token : option str) (a : args)
    (files : str -> option str) :
  let run := main w token a (boot files) in
  ((opt_truthy token = false \/ opt_truthy (pg_user a) = false \/
    opt_truthy (pg_database a) = false) /\
   fst run = Raise (SystemExit 1) /\
   forallb not_request (trace (snd run)) = true) \/
  (exists what,
     local_path_of w a = None /\
     fst run = Raise (PyException OsError what) /\
     forallb not_request (trace (snd run)) = true) \/
  (exists e,
     from_query_stage e = true /\ fst run = Raise e /\
     forallb not_request (trace (snd run)) = true) \/
  (exists what,
     fst run = Raise (PyException OsError what) /\
     put_requests (trace (snd run)) = []) \/
  (exists url data,
     put_requests (trace (snd run)) = [(url, data)] /\
     match w_put w url data with
     | Response status text =>
         if is_2xx status then fst run = Ok tt
         else fst run = Raise (SystemExit 2)
     | Failed what => fst run = Raise (PyException TransportError what)
     end).
Proof.
  intros run. subst run.
  destruct (opt_truthy token) eqn:Ht;
    [destruct (opt_truthy (pg_user a)) eqn:Hu;
     [destruct (opt_truthy (pg_database a)) eqn:Hd|]|];
    try (left; rewrite main_refuses by auto; repeat split; auto; fail).
  right.
  destruct (choose_local_path_cases w a (boot files))
    as [(path & s' & E & Hp & _) | (what & E & Hn)].
  2:{ left. exists what.
      rewrite (@main_no_tempfile w token a (boot files) _ _ Ht Hu Hd E).
      repeat split; assumption. }
  right.
  rewrite (@main_stages w token a (boot files) s' path Ht Hu Hd E). cbv zeta.
  pose proof (query_stage_local a files E) as Fq.
  pose proof (@run_query_raises (make_conn_params a) (query a) path
                (add_trace s' [EPrint Stdout (MsgQuerying path)])) as Hq.
  destruct (run_query_and_write_csv w _ _ path _) as [[[] | e] s1];
    cbn [fst snd] in *.
  2:{ left. exists e. split; [apply Hq; reflexivity|].
      split; [reflexivity|].
      destruct (@cleanup_emits not_request path (fun _ => eq_refl)
                  (fun _ => eq_refl) s1) as (lc & -> & Fc).
      rewrite forallb_app, Fq, Fc. reflexivity. }
  right. clear Hq.
  pose proof (publish_run w a (or_else token []) (make_remote_filename w a)
                path s1) as Epub.
  cbv zeta in Epub. rewrite Epub. clear Epub.
  set (url := remote_file_url _ _).
  set (auth := (or_else (yandex_login a) [], or_else token [])).
  set (l := mkcol_trace w auth 0 _ ++ _).
  assert (Fl : put_requests l = []).
  { apply put_requests_none. unfold l.
    rewrite forallb_app, mkcol_trace_no_put. reflexivity. }
  assert (F0 : put_requests (trace s1) = [])
    by (apply put_requests_none, not_request_not_put, Fq).
  assert (Hfin : forall s2 l2,
            put_requests (trace s2) = l2 ->
            put_requests (trace (snd (cleanup w path s2))) = l2).
  { intros s2 l2 H2.
    destruct (cleanup_emits_no_put w path s2) as (lc & -> & Fc).
    rewrite put_requests_app, H2, (put_requests_none _ Fc).
    apply app_nil_r. }
  destruct (fs s1 path) as [data|].
  2:{ left. eexists. split; [reflexivity|]. cbn [fst snd]. apply Hfin.
      cbn [trace add_trace]. rewrite put_requests_app, F0, Fl. reflexivity. }
  destruct (w_open_r w path) as [what|].
  { left. eexists. split; [reflexivity|]. cbn [fst snd]. apply Hfin.
    cbn [trace add_trace]. rewrite put_requests_app, F0, Fl. reflexivity. }
  right. exists url, data.
  assert (Hput : put_requests (trace (add_trace s1 (l ++ [EPut url auth data])))
                 = [(url, data)]).
  { cbn [trace add_trace]. rewrite !put_requests_app, F0, Fl. reflexivity. }
  destruct (w_put w url data) as [status text | what].
  - rewrite report_upload_run. fold (is_2xx status).
    destruct (is_2xx status); cbn [fst snd]; (split; [|reflexivity]);
      apply Hfin; cbn [trace add_trace]; rewrite put_requests_app;
      cbn [trace add_trace] in Hput; rewrite Hput; reflexivity.
  - cbn [fst snd]. split; [|reflexivity]. apply Hfin. exact Hput.
Qed.

End Outcomes.

Lemma is_2xx_spec (status : Z) :
  is_2xx status = true <-> (200 <= status < 300)%Z.
Proof. unfold is_2xx. rewrite andb_true_iff, Z.leb_le, Z.ltb_lt. tauto. Qed.

(** X5.  When [main] ends with an error of the query stage (connecting,
    creating the cursor, running the query, or writing the file), no
    request at all has been sent to the remote store. *)
Theorem query_failure_sends_nothing (w : world) (token : option str)
    (a : args) (files : str -> option str) (e : exn) :
  let run := main w token a (boot files) in
  fst run = Raise e -> from_query_stage e = true ->
  forallb not_request (trace (snd run)) = true.
Proof.
  intros run He Hq.
  destruct (main_outcomes w token a files)
    as [(_ & H & _) | [(what & _ & H & _) | [(e' & _ & _ & H) |
        [(what & H & _) | (url & data & _ & H)]]]];
    fold run in H; try exact H;
    try (rewrite He in H; injection H as ->; discriminate).
  destruct (w_put w url data) as [status text | what];
    [destruct (is_2xx status)|]; rewrite He in H;
    try discriminate; injection H as ->; discriminate.
Qed.

Lemma query_failure_sends_nothing_offline :
  forallb not_request
    (trace (snd (main Sample.offline Sample.token Sample.cli
                   (boot Sample.no_files)))) = true.
Proof.
  apply (@query_failure_sends_nothing Sample.offline Sample.token Sample.cli
           Sample.no_files
           (PyException ConnectionError (lit "connection refused")));
    reflexivity.
Defined.

(** X6.  What the exit status of the process tells, once the arguments
    are parsed.  The status is 0 only if [main] sent one upload request and
    the response had a 2xx status; it is 2 only if [main] sent one upload
    request and the response had another status; it is 1 either because
    the token, the database user or the database name is missing, and then
    nothing was sent, or because an exception reached the top level, and
    then no upload request was sent or the one sent failed in transport;
    and there is no other status. *)
Theorem exit_tells_what_happened (w : world) (token : option str) (a : args)
    (files : str -> option str) :
  let run := main w token a (boot files) in
  let status := exit_status (fst run) in
  (status = 0%Z ->
   fst run = Ok tt /\
   exists url data code text,
     put_requests (trace (snd run)) = [(url, data)] /\
     w_put w url data = Response code text /\ (200 <= code < 300)%Z) /\
  (status = 2%Z ->
   fst run = Raise (SystemExit 2) /\
   exists url data code text,
     put_requests (trace (snd run)) = [(url, data)] /\
     w_put w url data = Response code text /\ ~ (200 <= code < 300)%Z) /\
  (status = 1%Z ->
   (fst run = Raise (SystemExit 1) /\
    (opt_truthy token = false \/ opt_truthy (pg_user a) = false \/
     opt_truthy (pg_database a) = false) /\
    forallb not_request (trace (snd run)) = true) \/
   (exists kind what,
      fst run = Raise (PyException kind what) /\
      (put_requests (trace (snd run)) = [] \/
       exists url data,
         put_requests (trace (snd run)) = [(url, data)] /\
         w_put w url data = Failed what /\ kind = TransportError))) /\
  (status = 0%Z \/ status = 1%Z \/ status = 2%Z).
Proof.
  intros run status. subst status.
  destruct (main_outcomes w token a files)
    as [(Hpre & H & Hl) | [(what & _ & H & Hl) | [(e' & Hq & H & Hl) |
        [(what & H & Hp) | (url & data & Hp & H)]]]];
    fold run in H; try fold run in Hl; try fold run in Hp.
  - rewrite H. cbn [exit_status].
    split; [discriminate|]. split; [discriminate|].
    split; [|right; left; reflexivity].
    intros _. left. repeat split; assumption.
  - rewrite H. cbn [exit_status].
    split; [discriminate|]. split; [discriminate|].
    split; [|right; left; reflexivity].
    intros _. right. exists OsError, what. split; [reflexivity|]. left.
    apply put_requests_none, not_request_not_put, Hl.
  - rewrite H.
    destruct e' as [kind what | c]; [|discriminate Hq]. cbn [exit_status].
    split; [discriminate|]. split; [discriminate|].
    split; [|right; left; reflexivity].
    intros _. right. exists kind, what. split; [reflexivity|]. left.
    apply put_requests_none, not_request_not_put, Hl.
  - rewrite H. cbn [exit_status].
    split; [discriminate|]. split; [discriminate|].
    split; [|right; left; reflexivity].
    intros _. right. exists OsError, what. split; [reflexivity|]. left.
    exact Hp.
  - destruct (w_put w url data) as [code text | what] eqn:Eput.
    + destruct (is_2xx code) eqn:E2; rewrite H; cbn [exit_status].
      * apply is_2xx_spec in E2.
        split; [|split; [discriminate|split; [discriminate|]]].
        -- intros _. split; [reflexivity|].
           exists url, data, code, text. auto.
        -- left; reflexivity.
      * assert (~ (200 <= code < 300)%Z)
          by (rewrite <- is_2xx_spec, E2; discriminate).
        split; [discriminate|]. split; [|split; [discriminate|]].
        -- intros _. split; [reflexivity|].
           exists url, data, code, text. auto.
        -- right; right; reflexivity.
    + rewrite H. cbn [exit_status].
      split; [discriminate|]. split; [discriminate|].
      split; [|right; left; reflexivity].
      intros _. right. exists TransportError, what. split; [reflexivity|].
      right. exists url, data. auto.
Qed.

Lemma exit_tells_what_happened_calm :
  exists url data code text,
    put_requests
      (trace (snd (main Sample.calm Sample.token Sample.cli
                     (boot Sample.no_files)))) = [(url, data)] /\
    w_put Sample.calm url data = Response code text /\
    (200 <= code < 300)%Z.
Proof.
  apply (proj1 (exit_tells_what_happened Sample.calm Sample.token Sample.cli
                  Sample.no_files)).
  reflexivity.
Defined.

(** A refused connection: the token and the database parameters are there,
    and the process still ends with status 1. *)
Example refused_connection_exits_1 :
  let run := main Sample.offline Sample.token Sample.cli
               (boot Sample.no_files) in
  fst run = Raise (PyException ConnectionError (lit "connection refused")) /\
  exit_status (fst run) = 1%Z.
Proof. split; reflexivity. Qed.

Section Credentials.

Variable w : world.
Variable auth : credentials.

Lemma carries_own_mkcol (url : str) : carries auth (EMkcol url auth) = true.
Proof.
  unfold carries. cbn [auth_of]. destruct auth as [login secret].
  cbn [fst snd]. rewrite !str_eqb_refl. reflexivity.
Qed.

Lemma carries_own_put (url data : str) :
  carries auth (EPut url auth data) = true.
Proof.
  unfold carries. cbn [auth_of]. destruct auth as [login secret].
  cbn [fst snd]. rewrite !str_eqb_refl. reflexivity.
Qed.

Lemma run_query_carries (p : conn_params) (q path : str) :
  emits (carries auth) (run_query_and_write_csv w p q path).
Proof.
  apply emits_weaken with (P := is_export_event);
    [intros []; intros; try discriminate; reflexivity
    | apply run_query_emits].
Qed.

Lemma upload_carries (lp url : str) :
  emits (carries auth) (upload_file_to_yadisk w lp url auth).
Proof.
  intros s. rewrite upload_run.
  destruct (fs s lp); [destruct (w_open_r w lp)|]; cbn [snd trace add_trace];
    eexists; (split; [reflexivity|]); cbn [forallb];
    rewrite ?carries_own_put; reflexivity.
Qed.

End Credentials.

Lemma main_carries (w : world) (token : option str) (a : args) :
  emits (carries (or_else (yandex_login a) [], or_else token []))
    (main w token a).
Proof.
  set (auth := (or_else (yandex_login a) [], or_else token [])).
  unfold main.
  destruct (negb (opt_truthy token)); [unfold print, sys_exit; emits_auto|].
  destruct (_ || _)%bool; [unfold print, sys_exit; emits_auto|].
  apply emits_bind; [apply choose_local_path_emits; reflexivity|].
  intros path. apply emits_try_finally;
    [|apply cleanup_emits; reflexivity].
  rewrite pipeline_split. unfold publish. fold auth.
  pose proof (run_query_carries w auth (make_conn_params a) (query a) path).
  pose proof (upload_carries w auth path
                (remote_file_url (remote_dir a) (make_remote_filename w a))).
  assert (emits (carries auth) (make_remote_dirs w auth (remote_dir a)))
    by (apply make_remote_dirs_emits;
        [apply carries_own_mkcol | reflexivity]).
  unfold report_upload, print, sys_exit. emits_auto.
Qed.

(** X7.  Every request [main] sends, MKCOL or PUT, carries the same
    credentials: the login given on the command line (or the empty string)
    and the token of the environment. *)
Theorem every_request_carries_the_credentials (w : world)
    (token : option str) (a : args) (files : str -> option str) (e : event)
    (auth : credentials) :
  In e (trace (snd (main w token a (boot files)))) ->
  auth_of e = Some auth ->
  auth = (or_else (yandex_login a) [], or_else token []).
Proof.
  intros Hin Ha.
  destruct (main_carries w token a (boot files)) as (l & El & F).
  rewrite El in Hin. cbn [boot trace app] in Hin.
  rewrite forallb_forall in F. specialize (F e Hin).
  unfold carries in F. rewrite Ha in F. destruct auth as [login secret].
  cbn [fst snd] in F. apply andb_true_iff in F as [F1 F2].
  apply str_eqb_eq in F1, F2. congruence.
Qed.

Lemma every_request_carries_the_credentials_calm :
  Sample.auth = (or_else (yandex_login Sample.cli) [], or_else Sample.token []).
Proof.
  apply (@every_request_carries_the_credentials Sample.calm Sample.token
           Sample.cli Sample.no_files
           (EPut Sample.put_url Sample.auth Sample.exported) Sample.auth).
  - vm_compute. repeat (first [left; reflexivity | right]).
  - reflexivity.
Defined.

Section Untouched.

Variable w : world.

Lemma publish_same (a : args) (yad_token name lp : str) (s : sys) :
  let s' := snd (publish w a yad_token name lp s) in
  same_files s s' /\ same_handles s s'.
Proof.
  cbv zeta. pose proof (publish_run w a yad_token name lp s) as E.
  cbv zeta in E. rewrite E. clear E.
  destruct (fs s lp) as [data|]; [destruct (w_open_r w lp)|];
    try (split; [intros q | split]; reflexivity).
  destruct (w_put w _ data) as [status text | what];
    [rewrite report_upload_run; destruct (_ && _)%bool|];
    (split; [intros q | split]; reflexivity).
Qed.

Lemma cleanup_same_handles (path : str) (s : sys) :
  same_handles s (snd (cleanup w path s)).
Proof.
  rewrite cleanup_run.
  destruct (fs s path); [destruct (w_remove w path)|]; split; reflexivity.
Qed.

(** With a cursor, the query stage leaves no handle open. *)
Lemma run_query_handles (p : conn_params) (q path : str) (s : sys) :
  w_cursor w = None -> conn_open s = false -> cursor_open s = false ->
  let s' := snd (run_query_and_write_csv w p q path s) in
  conn_open s' = false /\ cursor_open s' = false.
Proof.
  intros Hk Hc Hu. cbv zeta.
  destruct (w_connect w p) as [what|] eqn:E.
  { rewrite (run_query_refused _ _ _ _ _ E). split; assumption. }
  rewrite (run_query_connected _ _ _ _ _ E Hk). unfold try_finally.
  destruct (export_body w q path _) as [r s1].
  rewrite release_run. split; reflexivity.
Qed.

Lemma choose_local_path_state (a : args) (s s' : sys) (path : str) :
  choose_local_path w a s = (Ok path, s') ->
  other_files path s s' /\ same_handles s s'.
Proof.
  rewrite choose_local_path_run.
  destruct (opt_truthy (local_temp a)).
  - intros [= _ <-]. split; [apply other_files_refl | split; reflexivity].
  - destruct (w_mkstemp w) as [p | what]; [|discriminate].
    intros [= <- <-]. split; [|split; reflexivity].
    intros q Hq. cbn. unfold update. apply str_eqb_neq in Hq.
    rewrite Hq. reflexivity.
Qed.

End Untouched.

(** X8.  [main] changes no file but the local one: every other path holds
    after the run what it held before, however the run ends. *)
Theorem only_the_local_file_changes (w : world) (token : option str)
    (a : args) (files : str -> option str) (q : str) :
  local_path_of w a <> Some q ->
  fs (snd (main w token a (boot files))) q = files q.
Proof.
  intros Hq.
  destruct (opt_truthy token) eqn:Ht;
    [destruct (opt_truthy (pg_user a)) eqn:Hu;
     [destruct (opt_truthy (pg_database a)) eqn:Hd|]|];
    try (rewrite main_refuses by auto; reflexivity).
  destruct (choose_local_path_cases w a (boot files))
    as [(path & s' & E & Hp & _) | (what & E & _)].
  2:{ rewrite (@main_no_tempfile w token a (boot files) _ _ Ht Hu Hd E).
      reflexivity. }
  assert (Hne : q <> path) by congruence.
  rewrite (@main_stages w token a (boot files) s' path Ht Hu Hd E). cbv zeta.
  destruct (@choose_local_path_state w a _ _ _ E) as [H0 _].
  pose proof (@run_query_other_files w path (make_conn_params a) (query a)
                (add_trace s' [EPrint Stdout (MsgQuerying path)])) as H1.
  destruct (run_query_and_write_csv w _ _ path _) as [[[] | e] s1];
    cbn [fst snd] in *.
  - destruct (publish_same w a (or_else token []) (make_remote_filename w a)
                path s1) as [H2 _].
    rewrite (@cleanup_other_files w path _ q Hne), H2, (H1 q Hne).
    cbn [fs add_trace]. rewrite (H0 q Hne). reflexivity.
  - rewrite (@cleanup_other_files w path _ q Hne), (H1 q Hne).
    cbn [fs add_trace]. rewrite (H0 q Hne). reflexivity.
Qed.

Lemma only_the_local_file_changes_calm :
  fs (snd (main Sample.calm Sample.token Sample.cli
             (boot (update Sample.no_files (lit "notes.txt")
                      (Some (lit "keep"))))))
     (lit "notes.txt") = Some (lit "keep").
Proof.
  apply (@only_the_local_file_changes Sample.calm Sample.token Sample.cli
           (update Sample.no_files (lit "notes.txt") (Some (lit "keep")))
           (lit "notes.txt")).
  discriminate.
Defined.

(** X9.  When the cursor can be created, [main] leaves no database handle
    open, however it ends. *)
Theorem main_leaves_no_handle_open (w : world) (token : option str)
    (a : args) (files : str -> option str) :
  w_cursor w = None ->
  let s := snd (main w token a (boot files)) in
  conn_open s = false /\ cursor_open s = false.
Proof.
  intros Hk. cbv zeta.
  destruct (opt_truthy token) eqn:Ht;
    [destruct (opt_truthy (pg_user a)) eqn:Hu;
     [destruct (opt_truthy (pg_database a)) eqn:Hd|]|];
    try (rewrite main_refuses by auto; split; reflexivity).
  destruct (choose_local_path_cases w a (boot files))
    as [(path & s' & E & Hp & _) | (what & E & _)].
  2:{ rewrite (@main_no_tempfile w token a (boot files) _ _ Ht Hu Hd E).
      split; reflexivity. }
  rewrite (@main_stages w token a (boot files) s' path Ht Hu Hd E). cbv zeta.
  destruct (@choose_local_path_state w a _ _ _ E) as [_ [Hc0 Hu0]].
  cbn [boot conn_open cursor_open] in Hc0, Hu0.
  destruct (@run_query_handles w (make_conn_params a) (query a) path
              (add_trace s' [EPrint Stdout (MsgQuerying path)]) Hk Hc0 Hu0)
    as [H1 H2].
  destruct (run_query_and_write_csv w _ _ path _) as [[[] | e] s1];
    cbn [fst snd] in *.
  - destruct (publish_same w a (or_else token []) (make_remote_filename w a)
                path s1) as [_ [H3 H4]].
    destruct (cleanup_same_handles w path
                (snd (publish w a (or_else token [])
                        (make_remote_filename w a) path s1))) as [H5 H6].
    rewrite H5, H6, H3, H4. split; assumption.
  - destruct (cleanup_same_handles w path s1) as [H5 H6].
    rewrite H5, H6. split; assumption.
Qed.

Lemma main_leaves_no_handle_open_calm :
  let s := snd (main Sample.calm Sample.token Sample.cli
                  (boot Sample.no_files)) in
  conn_open s = false /\ cursor_open s = false.
Proof.
  exact (@main_leaves_no_handle_open Sample.calm Sample.token Sample.cli
           Sample.no_files eq_refl).
Defined.

(* ================================================================== *)
(** * Further properties of the query stage *)

Section Interrupted.

Variable w : world.
Variable path : str.
Variable names : list str.

Hypothesis writes_fine : forall i, w_write w i = None.

Lemma write_rows_interrupted (rows : list (list value)) (what : str)
    (rest : list (outcome (list value))) (i : nat) (s : sys) (old : str) :
  fs s path = Some old ->
  exists s',
    write_rows w path names i (map Fine rows ++ Fails what :: rest) s
      = (Raise (PyException QueryError what), s') /\
    fs s' path = Some (old ++ csv_text (map (row_fields names) rows)).
Proof.
  revert i s old. induction rows as [|vals rows IH]; intros i s old Hold.
  - exists s. cbn. rewrite app_nil_r. auto.
  - cbn [map app write_rows]. unfold bind.
    destruct (@writerow_fine w path names writes_fine i vals s old Hold)
      as (s1 & -> & H1).
    destruct (IH (S i) s1 _ H1) as (s2 & -> & H2).
    exists s2. split; [reflexivity|].
    rewrite H2. unfold csv_text. cbn [map concat].
    rewrite <- app_assoc. reflexivity.
Qed.

End Interrupted.

(** X10.  The file is written as the rows arrive: when fetching fails
    after some rows, the stage raises the query error, both handles are
    closed, and the file holds the header and the rows fetched before the
    failure. *)
Theorem rows_before_a_failure_are_kept (w : world) (p : conn_params)
    (q path : str) (names : list str) (rows : list (list value))
    (what : str) (rest : list (outcome (list value))) (s : sys) :
  w_connect w p = None ->
  w_cursor w = None ->
  w_execute w q = Fine names ->
  w_open_w w path = None ->
  (forall i, w_write w i = None) ->
  w_fetch w = map Fine rows ++ Fails what :: rest ->
  let run := run_query_and_write_csv w p q path s in
  fst run = Raise (PyException QueryError what) /\
  fs (snd run) path = Some (csv_text (names :: map (row_fields names) rows)) /\
  conn_open (snd run) = false /\ cursor_open (snd run) = false.
Proof.
  intros Hc Hk He Ho Hw Hf run.
  assert (E : exists s',
            run = (Raise (PyException QueryError what), s') /\
            fs s' path = Some (csv_text (names :: map (row_fields names) rows))
            /\ conn_open s' = false /\ cursor_open s' = false).
  { subst run. rewrite run_query_connected by assumption.
    unfold try_finally, export_body.
    unfold bind at 1, cur_execute, bind at 1, log. rewrite He.
    unfold ret at 1, bind at 1, open_w, bind at 1, log, bind at 1, check.
    rewrite Ho. unfold ret at 1, set_file at 1, bind at 1.
    unfold DictWriter_writeheader.
    match goal with
    | |- context [DictWriter_writerow _ _ _ _ _ ?s0] =>
        destruct (@writerow_fine w path names Hw 0 (map PyStr names) s0 [])
          as (s1 & -> & H1)
    end.
    { cbn. unfold update. rewrite str_eqb_refl. reflexivity. }
    rewrite header_fields in H1. cbn [app] in H1. rewrite Hf.
    destruct (@write_rows_interrupted w path names Hw rows what rest 1 s1 _
                H1) as (s2 & -> & H2).
    rewrite release_run. eexists. split; [reflexivity|].
    cbn [fs conn_open cursor_open]. split; [|split; reflexivity].
    rewrite H2. unfold csv_text. cbn [map concat]. reflexivity. }
  destruct E as (s' & -> & H). exact (conj eq_refl H).
Qed.

Lemma rows_before_a_failure_are_kept_one :
  let w := Sample.with_fetch
             [Fine [PyOther (lit "1"); PyNone]; Fails (lit "connection lost")]
             Sample.calm in
  let run := run_query_and_write_csv w Sample.params (lit "q")
               (lit "out.csv") (boot Sample.no_files) in
  fst run = Raise (PyException QueryError (lit "connection lost")) /\
  fs (snd run) (lit "out.csv") =
    Some (csv_text [[lit "id"; lit "name"]; [lit "1"; []]]).
Proof.
  intros w run.
  destruct (@rows_before_a_failure_are_kept w Sample.params (lit "q")
              (lit "out.csv") [lit "id"; lit "name"]
              [[PyOther (lit "1"); PyNone]] (lit "connection lost") []
              (boot Sample.no_files)
              eq_refl eq_refl eq_refl eq_refl (fun _ => eq_refl) eq_refl)
    as (H1 & H2 & _).
  split; [exact H1 | exact H2].
Defined.

(** X11.  The local file is opened only after the query has been run:
    when the connection, the cursor or the execution of the query fails,
    the stage raises and no file has changed, so that a file already at
    the local path is not truncated. *)
Theorem early_failure_leaves_files (w : world) (p : conn_params)
    (q path : str) (s : sys) :
  w_connect w p <> None \/ w_cursor w <> None \/
  (exists what, w_execute w q = Fails what) ->
  let run := run_query_and_write_csv w p q path s in
  (exists e, fst run = Raise e) /\ same_files s (snd run).
Proof.
  intros H. cbv zeta.
  destruct (w_connect w p) as [what|] eqn:Ec.
  { rewrite (run_query_refused _ _ _ _ _ Ec).
    split; [eexists; reflexivity | intros x; reflexivity]. }
  destruct (w_cursor w) as [what|] eqn:Ek.
  { rewrite (run_query_no_cursor _ _ _ _ _ Ec Ek).
    split; [eexists; reflexivity | intros x; reflexivity]. }
  destruct H as [H | [H | (what & He)]]; try congruence.
  assert (E : run_query_and_write_csv w p q path s =
              (Raise (PyException QueryError what),
               {| fs := fs s; conn_open := false; cursor_open := false;
                  trace := (trace s ++ [EConnect p; ECursor; EExecute q])
                           ++ [ECursorClose; EConnClose] |})).
  { rewrite (run_query_connected _ _ _ _ _ Ec Ek).
    unfold try_finally, export_body.
    unfold bind at 1, cur_execute, bind at 1, log. rewrite He.
    cbn [raise]. rewrite release_run. cbn [fs trace add_trace].
    rewrite <- !app_assoc. reflexivity. }
  rewrite E. split; [eexists; reflexivity | intros x; reflexivity].
Qed.

Lemma early_failure_leaves_files_offline :
  let files := update Sample.no_files (lit "out.csv") (Some (lit "old")) in
  fs (snd (run_query_and_write_csv Sample.offline Sample.params (lit "q")
             (lit "out.csv") (boot files))) (lit "out.csv")
  = Some (lit "old").
Proof.
  intros files.
  destruct (@early_failure_leaves_files Sample.offline Sample.params
              (lit "q") (lit "out.csv") (boot files)) as [_ H].
  - left. discriminate.
  - apply H.
Defined.

(** X12.  When a column name occurs more than once in the descriptor,
    every column of that name is written with the value fetched for the
    last of them: the values of the earlier ones are not in the file. *)
Theorem duplicate_columns_show_the_last_value (pre post : list str) (k : str)
    (vpre vpost : list value) (v : value) (i : nat) :
  ~ In k post -> length vpre = length pre ->
  nth_error (pre ++ k :: post) i = Some k ->
  nth_error (row_fields (pre ++ k :: post) (vpre ++ v :: vpost)) i
  = Some (value_text v).
Proof.
  intros Hk Hlen Hi. unfold row_fields, dict_to_list.
  rewrite map_map, nth_error_map, Hi. cbn [option_map].
  rewrite real_dict_row_last by assumption. reflexivity.
Qed.

Lemma duplicate_columns_show_the_last_value_twice :
  nth_error (row_fields [lit "a"; lit "a"]
               [PyStr (lit "first"); PyStr (lit "second")]) 0
  = Some (lit "second").
Proof.
  apply (@duplicate_columns_show_the_last_value [lit "a"] [] (lit "a")
           [PyStr (lit "first")] [] (PyStr (lit "second")) 0).
  - intros [].
  - reflexivity.
  - reflexivity.
Defined.

(** X13.  The text of a file determines its records: two lists of records
    with the same text are the same list.  A value [None] and an empty
    [str] value, though, are written alike. *)
Theorem csv_text_determines_records (r1 r2 : list (list str)) :
  (csv_text r1 = csv_text r2 -> r1 = r2) /\
  (forall names, row_fields names [PyNone] = row_fields names [PyStr []]).
Proof.
  split.
  - intros H. apply (f_equal csv_reader) in H.
    rewrite !csv_roundtrip in H. congruence.
  - intros names. unfold row_fields, dict_to_list.
    rewrite !map_map. apply map_ext. intros k.
    destruct names as [|n [|n' names]]; [reflexivity | |];
      unfold real_dict_row; cbn [combine fold_left];
      unfold assign; cbn [fst snd dict_set dict_get];
      destruct (str_eqb k n); reflexivity.
Qed.

Lemma csv_text_determines_records_sample :
  [[lit "a"; lit "b,c"]] = [[lit "a"; lit "b,c"]].
Proof.
  apply (proj1 (csv_text_determines_records [[lit "a"; lit "b,c"]]
                  [[lit "a"; lit "b,c"]])).
  reflexivity.
Defined.

(* ================================================================== *)
(** * The smoke test *)

Section SmokeTest.

Import Smoke.

Variable w : world.

Lemma printed_app (l1 l2 : list action) :
  printed (l1 ++ l2) = printed l1 ++ printed l2.
Proof.
  induction l1 as [|a l1 IH]; [reflexivity|].
  destruct a; cbn [app printed]; rewrite ?IH; reflexivity.
Qed.

Lemma printed_lines (ls : list line) : printed (map Print ls) = ls.
Proof. induction ls as [|x ls IH]; cbn; rewrite ?IH; reflexivity. Qed.

(** Printing the rows: all of them when each has its three fields. *)
Lemma print_rows_all (rows : list (list value)) (s : state) :
  Forall (fun row => 3 <= length row) rows ->
  print_rows rows s = (inl tt, more s (map Print (map row_line rows))).
Proof.
  intros H. revert s. induction H as [|row rows Hrow _ IH]; intros s.
  - cbn. unfold more. rewrite app_nil_r. destruct s; reflexivity.
  - destruct row as [|id [|name [|created_at more_fields]]];
      cbn in Hrow; try lia.
    cbn [print_rows]. unfold andthen, say, act. rewrite IH.
    unfold more. cbn. rewrite <- app_assoc. reflexivity.
Qed.

(** Printing the rows changes no handle and closes nothing. *)
Lemma print_rows_keeps (rows : list (list value)) (s : state) :
  let s' := snd (print_rows rows s) in
  connected s' = connected s /\
  exists l, actions s' = actions s ++ l /\ existsb is_close_conn l = false.
Proof.
  revert s. induction rows as [|row rows IH]; intros s.
  - cbn. split; [reflexivity|]. exists []. rewrite app_nil_r. auto.
  - destruct row as [|id [|name [|created_at more_fields]]];
      try (cbn; split; [reflexivity|]; exists []; rewrite app_nil_r; auto).
    cbn [print_rows]. unfold andthen, say, act.
    destruct (IH {| connected := connected s; has_cursor := has_cursor s;
                    actions := actions s ++ [Print (Row id name created_at)]
                 |}) as (Hc & l & Hl & Fl).
    cbv zeta. destruct (print_rows rows _) as [[[] | e] s'];
      cbn [snd connected actions] in *;
      (split; [assumption|]);
      exists (Print (Row id name created_at) :: l);
      rewrite Hl, <- app_assoc; auto.
Qed.

(** The body when nothing fails. *)
Lemma body_fine (rows : list (list value)) :
  connect w = None -> set_isolation_level w = None -> cursor w = None ->
  (forall st, execute w st = None) -> fetchall w = Rows rows ->
  close_cursor w = None ->
  Forall (fun row => 3 <= length row) rows ->
  body w start =
  (inl tt,
   {| connected := false; has_cursor := false;
      actions :=
        [Connect conn_params; SetAutocommit; Cursor;
         Execute (CreateSchema schema_name);
         Print (SchemaReady schema_name);
         Execute (CreateTable schema_name table_name);
         Print (TableReady schema_name table_name);
         Execute (InsertIfAbsent schema_name table_name sample_name);
         Print DataAdded;
         Execute (SelectAll schema_name table_name); FetchAll;
         Print (Header schema_name table_name); Print (Rule 60)]
        ++ map Print (map row_line rows)
        ++ [Print (Rule 60); Print (Count (length rows)); CloseCursor;
            CloseConn; Print Closed] |}).
Proof.
  intros Hc Hi Hk He Hf Hx Hrows.
  unfold body, cur_execute, cur_fetchall.
  rewrite Hc, Hi, Hk, !He, Hf, Hx.
  unfold andthen, say, act, guard, pure, set_connected, set_has_cursor.
  cbn [more connected has_cursor actions start app].
  rewrite (print_rows_all _ Hrows). unfold more.
  cbn [connected has_cursor actions]. rewrite <- !app_assoc. reflexivity.
Qed.

(** X14.  On a database where everything works, the smoke test runs its
    four statements in order, prints the three confirmations, the header,
    one line for each row fetched, in order, then the number of rows,
    closes the cursor and the connection, and prints that it did. *)
Theorem smoke_test_prints_every_row (rows : list (list value)) :
  connect w = None -> set_isolation_level w = None -> cursor w = None ->
  (forall st, execute w st = None) -> fetchall w = Rows rows ->
  close_cursor w = None ->
  Forall (fun row => 3 <= length row) rows ->
  let run := main w start in
  fst run = inl tt /\
  printed (actions (snd run)) =
    [SchemaReady schema_name; TableReady schema_name table_name; DataAdded;
     Header schema_name table_name; Rule 60]
    ++ map row_line rows ++ [Rule 60; Count (length rows); Closed] /\
  executed (actions (snd run)) =
    [CreateSchema schema_name; CreateTable schema_name table_name;
     InsertIfAbsent schema_name table_name sample_name;
     SelectAll schema_name table_name] /\
  connected (snd run) = false /\ has_cursor (snd run) = false.
Proof.
  intros Hc Hi Hk He Hf Hx Hrows. cbv zeta. unfold main.
  rewrite (body_fine Hc Hi Hk He Hf Hx Hrows). cbn [fst snd actions].
  split; [reflexivity|]. split; [|split; [|split; reflexivity]].
  - cbn [app printed]. rewrite printed_app, printed_lines. reflexivity.
  - cbn [app executed]. generalize (map row_line rows) as ls.
    induction ls as [|x ls IH]; [reflexivity | exact IH].
Qed.

(** The body when it raises: the connection, once made, is still open and
    was never closed. *)
Lemma body_raises (e : error) :
  connect w = None ->
  fst (body w start) = inr e ->
  connected (snd (body w start)) = true /\
  existsb is_close_conn (actions (snd (body w start))) = false.
Proof.
  intros Hc He.
  destruct (body w start) as [[[] | e0] s'] eqn:E; cbn [fst snd] in *;
    [discriminate|].
  clear He. revert E. unfold body, cur_execute, cur_fetchall, say.
  rewrite Hc.
  assert (Hstop : forall e1 s1, connected s1 = true ->
                    existsb is_close_conn (actions s1) = false ->
                    (@inr unit error e1, s1) = (inr e0, s') ->
                    connected s' = true /\
                    existsb is_close_conn (actions s') = false).
  { intros e1 s1 H1 H2 E. injection E as <- <-. split; assumption. }
  cbn [andthen act guard pure fail more set_connected set_has_cursor
       connected has_cursor actions app start].
  destruct (set_isolation_level w);
    cbn [andthen act guard pure fail more set_connected set_has_cursor
         connected has_cursor actions app];
    [apply Hstop; reflexivity|].
  destruct (cursor w);
    cbn [andthen act guard pure fail more set_connected set_has_cursor
         connected has_cursor actions app];
    [apply Hstop; reflexivity|].
  destruct (execute w (CreateSchema schema_name));
    cbn [andthen act guard pure fail more set_connected set_has_cursor
         connected has_cursor actions app];
    [apply Hstop; reflexivity|].
  destruct (execute w (CreateTable schema_name table_name));
    cbn [andthen act guard pure fail more set_connected set_has_cursor
         connected has_cursor actions app];
    [apply Hstop; reflexivity|].
  destruct (execute w (InsertIfAbsent schema_name table_name sample_name));
    cbn [andthen act guard pure fail more set_connected set_has_cursor
         connected has_cursor actions app];
    [apply Hstop; reflexivity|].
  destruct (execute w (SelectAll schema_name table_name));
    cbn [andthen act guard pure fail more set_connected set_has_cursor
         connected has_cursor actions app];
    [apply Hstop; reflexivity|].
  destruct (fetchall w) as [rows | e'];
    cbn [andthen act guard pure fail more set_connected set_has_cursor
         connected has_cursor actions app];
    [|apply Hstop; reflexivity].
  unfold andthen at 1, more.
  cbn [connected has_cursor actions app].
  match goal with
  | |- context [print_rows rows ?s0] =>
      generalize (print_rows_keeps rows s0); cbv zeta;
      destruct (print_rows rows s0) as [[[] | e'] s1]
  end; cbn [snd connected actions]; intros (Hk & l & Hl & Fl).
  2:{ apply Hstop; [exact Hk|]. rewrite Hl, existsb_app, Fl. reflexivity. }
  destruct (close_cursor w);
    cbn [andthen act guard pure fail more set_connected set_has_cursor
         connected has_cursor actions app];
    [|discriminate].
  apply Hstop; unfold more; cbn [connected actions]; [exact Hk|].
  rewrite !existsb_app, Hl, existsb_app, Fl. reflexivity.
Qed.

(** X15.  The smoke test never raises: an error of the database or any
    other exception ends it with one more line, which reports a
    [psycopg2.Error] as such and any other exception as a general error.
    Nothing closes the connection then: once made, it is left open. *)
Theorem smoke_test_reports_and_leaks (e : error) :
  (forall s, fst (main w s) = inl tt) /\
  (fst (body w start) = inr e ->
   actions (snd (main w start)) =
     actions (snd (body w start)) ++ [Print (error_line e)] /\
   (connect w = None ->
    connected (snd (main w start)) = true /\
    existsb is_close_conn (actions (snd (main w start))) = false)).
Proof.
  split.
  - intros s. unfold main. destruct (body w s) as [[[] | [what | what]] s'];
      reflexivity.
  - intros He.
    assert (Hm : main w start = say (error_line e) (snd (body w start))).
    { unfold main. destruct (body w start) as [[[] | e'] s'];
        cbn [fst snd] in *; [discriminate|].
      injection He as ->. destruct e; reflexivity. }
    rewrite Hm. cbn [say act snd more actions connected].
    split; [reflexivity|]. intros Hc.
    destruct (body_raises Hc He) as [H1 H2].
    rewrite existsb_app, H2. split; [assumption | reflexivity].
Qed.

End SmokeTest.

Lemma smoke_test_prints_every_row_calm :
  Smoke.printed (Smoke.actions (snd (Smoke.main Smoke.calm Smoke.start))) =
    [Smoke.SchemaReady Smoke.schema_name;
     Smoke.TableReady Smoke.schema_name Smoke.table_name; Smoke.DataAdded;
     Smoke.Header Smoke.schema_name Smoke.table_name; Smoke.Rule 60;
     Smoke.Row (PyOther (lit "1")) (PyStr (lit "sample"))
       (PyOther (lit "2024-01-01"));
     Smoke.Row (PyOther (lit "2")) (PyStr (lit "other"))
       (PyOther (lit "2024-01-02"));
     Smoke.Rule 60; Smoke.Count 2; Smoke.Closed].
Proof.
  assert (Hrows : Forall (fun row : list value => 3 <= length row)
                    [[PyOther (lit "1"); PyStr (lit "sample");
                      PyOther (lit "2024-01-01")];
                     [PyOther (lit "2"); PyStr (lit "other");
                      PyOther (lit "2024-01-02")]])
    by (repeat constructor).
  exact (proj1 (proj2 (@smoke_test_prints_every_row Smoke.calm _
                         eq_refl eq_refl eq_refl (fun _ => eq_refl) eq_refl
                         eq_refl Hrows))).
Defined.

Lemma smoke_test_reports_and_leaks_read_only :
  Smoke.connected (snd (Smoke.main Smoke.read_only Smoke.start)) = true /\
  existsb Smoke.is_close_conn
    (Smoke.actions (snd (Smoke.main Smoke.read_only Smoke.start))) = false.
Proof.
  destruct (smoke_test_reports_and_leaks Smoke.read_only
              (Smoke.PgError (lit "denied"))) as [_ H].
  destruct (H eq_refl) as [_ H'].
  exact (H' eq_refl).
Defined.
